(** * Favicon generator (generate_favicons.py): model and verification

    The script is a straight-line batch job: create the output directory,
    decode [icon.png], write eight square PNG resizes, one icon container
    and one touch icon, and report progress on the console.

    The script is embedded as a computation in a state-and-exception monad
    over an explicit [World] (file system, directories, console, history of
    I/O attempts).  A raised exception keeps the world reached so far, as an
    unhandled Python exception keeps the files already written. *)

From Stdlib Require Import ZArith String Ascii List DecimalString DecimalZ.
From stdpp Require Import gmap strings list fin_maps.

Local Open Scope Z_scope.

(** ** Strings, paths and console lines *)

(** The newline character that [print] appends. *)
Definition nl : string := String (ascii_of_nat 10) EmptyString.

(** [str(n)] for a Python int, as used by the f-strings of the script. *)
Definition str (n : Z) : string := NilZero.string_of_int (Z.to_int n).

Fixpoint starts_with (pre s : string) : bool :=
  match pre, s with
  | EmptyString, _ => true
  | String a pre', String b s' => if Ascii.eqb a b then starts_with pre' s' else false
  | String _ _, EmptyString => false
  end.

Fixpoint ends_with (suf s : string) : bool :=
  match s with
  | EmptyString => String.eqb suf EmptyString
  | String _ s' => String.eqb suf s || ends_with suf s'
  end.

(** [os.path.join(a, b)] of posixpath, for two components. *)
Definition path_join (a b : string) : string :=
  if starts_with "/" b then b
  else if String.eqb a "" || ends_with "/" a then a +:+ b
  else a +:+ "/" +:+ b.

Fixpoint has_slash (s : string) : bool :=
  match s with
  | EmptyString => false
  | String c s' => Ascii.eqb c "/" || has_slash s'
  end.

(** The directory part of a relative path: everything before the last
    separator; the empty string stands for the working directory. *)
Fixpoint dirname (p : string) : string :=
  match p with
  | EmptyString => EmptyString
  | String c rest => if has_slash rest then String c (dirname rest) else EmptyString
  end.

(** The text of a console stream cut into its lines: every newline ends a
    line, a trailing unterminated fragment is a line of its own. *)
Fixpoint lines_from (cur : string) (s : string) : list string :=
  match s with
  | EmptyString => if String.eqb cur "" then [] else [cur]
  | String c s' =>
      if Ascii.eqb c (ascii_of_nat 10) then cur :: lines_from "" s'
      else lines_from (cur +:+ String c EmptyString) s'
  end.

Definition lines (s : string) : list string := lines_from "" s.

(** Each line followed by a newline, concatenated. *)
Fixpoint unlines (l : list string) : string :=
  match l with
  | [] => ""
  | x :: l' => x +:+ nl +:+ unlines l'
  end.

(** The characters [str] can produce: decimal digits and the sign. *)
Definition numeric_char (c : ascii) : bool :=
  match c with
  | "0" | "1" | "2" | "3" | "4" | "5" | "6" | "7" | "8" | "9" | "-" => true
  | _ => false
  end%char.

Fixpoint numeric (s : string) : bool :=
  match s with
  | EmptyString => true
  | String c s' => numeric_char c && numeric s'
  end.

(** ** Images and the imaging library *)

Inductive Filter := NEAREST | BILINEAR | BICUBIC | LANCZOS.
Inductive Format := PNG | ICO.

Definition Size : Type := Z * Z.

Definition size_eqb (a b : Size) : bool := (a.1 =? b.1) && (a.2 =? b.2).

(** Tuple order of Python on pairs of ints. *)
Definition size_ltb (a b : Size) : bool :=
  (a.1 <? b.1) || ((a.1 =? b.1) && (a.2 <? b.2)).

Fixpoint insert_size (x : Size) (l : list Size) : list Size :=
  match l with
  | [] => [x]
  | y :: l' =>
      if size_eqb x y then l
      else if size_ltb x y then x :: l
      else y :: insert_size x l'
  end.

(** [sorted(set(sizes))]. *)
Definition sorted_set (l : list Size) : list Size :=
  fold_right insert_size [] l.

(** Extension-based format detection of [Image.save] when no [format=]
    is given. *)
Definition format_of_ext (p : string) : option Format :=
  if ends_with ".png" p then Some PNG
  else if ends_with ".ico" p then Some ICO
  else None.

(** Exceptions, by class; the argument is the path the failing call was
    working on.  [OSError] is the plain class, the others but [ValueError]
    and [IndexError] are its subclasses. *)
Inductive Exn :=
| FileExistsError (p : string)
| FileNotFoundError (p : string)
| PermissionError (p : string)
| IsADirectoryError (p : string)
| NotADirectoryError (p : string)
| UnidentifiedImageError (p : string)
| OSError (p : string)
| ValueError (p : string)
| IndexError.

(** The reasons an operating system gives for refusing a file operation. *)
Inductive Errno :=
| EACCES | EPERM | EEXIST | ENOENT | EISDIR | ENOTDIR
| ENOSPC | EROFS | ENAMETOOLONG | EDQUOT | EIO.

(** The exception class Python raises for a refused system call: the
    subclass of [OSError] tied to the error number, the plain class when
    there is none. *)
Definition os_error (code : Errno) (p : string) : Exn :=
  match code with
  | EACCES | EPERM => PermissionError p
  | EEXIST => FileExistsError p
  | ENOENT => FileNotFoundError p
  | EISDIR => IsADirectoryError p
  | ENOTDIR => NotADirectoryError p
  | ENOSPC | EROFS | ENAMETOOLONG | EDQUOT | EIO => OSError p
  end.

Inductive Result (A : Type) :=
| Ok (a : A)
| Raise (e : Exn).
Arguments Ok {A} a.
Arguments Raise {A} e.

(** ** Rasters, files and the world *)

Record Image (Px : Type) := mkImage {
  im_mode : string;
  im_size : Size;
  im_data : Px
}.
Arguments mkImage {Px} _ _ _.
Arguments im_mode {Px} _.
Arguments im_size {Px} _.
Arguments im_data {Px} _.

(** What a file holds.  PNG is lossless, so a PNG file is identified with
    the raster it stores; an icon container with the list of its frames. *)
Inductive FileData (Px : Type) :=
| Raw (bytes : list Byte.byte)
| PngFile (im : Image Px)
| IcoFile (frames : list (Image Px)).
Arguments Raw {Px} _.
Arguments PngFile {Px} _.
Arguments IcoFile {Px} _.

Inductive Event (Px : Type) :=
| EvMakedirs (p : string)
| EvOpen (p : string)
| EvSave (p : string) (d : FileData Px)
| EvPrint (s : string).
Arguments EvMakedirs {Px} _.
Arguments EvOpen {Px} _.
Arguments EvSave {Px} _ _.
Arguments EvPrint {Px} _.

Record World (Px : Type) := mkWorld {
  files : gmap string (FileData Px);
  dirs : gset string;
  stdout : string;
  trace : list (Event Px)
}.
Arguments mkWorld {Px} _ _ _ _.
Arguments files {Px} _.
Arguments dirs {Px} _.
Arguments stdout {Px} _.
Arguments trace {Px} _.

(** The imaging library.  The pixel payload of a raster and the numeric
    kernels (floating-point resampling, colour conversion, the decoder of
    arbitrary input bytes, the aspect-preserving thumbnail) are an
    interface; sizes and modes are tracked exactly.  For bytes that do not
    decode, [recognised] tells whether their header is that of a known
    format (a truncated or corrupt image) or not (no image at all). *)
Class Imaging := {
  Pixels : Type;
  resample : Filter -> Size -> Size -> Pixels -> Pixels;
  convert_pixels : string -> string -> Pixels -> Pixels;
  decode : list Byte.byte -> option (Image Pixels);
  recognised : list Byte.byte -> bool;
  thumbnail : Image Pixels -> Size -> Image Pixels
}.

(** The operating system may refuse an operation.  A refused write
    (disk full, permission denied, path too long) leaves at the path
    whatever the oracle says: nothing, the old content, a fragment.  The
    [_errno] fields give the reason of a refusal, which decides the class
    of the exception. *)
Class System `{Imaging} := {
  write_fault : World Pixels -> string -> option (option (FileData Pixels));
  write_errno : World Pixels -> string -> Errno;
  mkdir_denied : string -> bool;
  mkdir_errno : string -> Errno;
  read_denied : string -> bool;
  read_errno : string -> Errno
}.

Section Generator.

Context `{Sys : System}.

Local Abbreviation image := (Image Pixels).
Local Abbreviation filedata := (FileData Pixels).
Local Abbreviation world := (World Pixels).

(** [img.convert(mode)] *)
Definition convert (im : image) (mode : string) : image :=
  {| im_mode := mode;
     im_size := im_size im;
     im_data := convert_pixels (im_mode im) mode (im_data im) |}.

(** [img.resize(size, resample)]: the result has exactly the requested
    size, whatever the aspect ratio of the receiver. *)
Definition resize (im : image) (size : Size) (f : Filter) : image :=
  {| im_mode := im_mode im;
     im_size := size;
     im_data := resample f (im_size im) size (im_data im) |}.

Definition is_square (im : image) : Prop := (im_size im).1 = (im_size im).2.

Definition rasters (d : filedata) : list image :=
  match d with
  | Raw _ => []
  | PngFile im => [im]
  | IcoFile frames => frames
  end.

Definition area (im : image) : Z := (im_size im).1 * (im_size im).2.

Definition largest_frame (frames : list image) : option image :=
  fold_right (fun f acc =>
                match acc with
                | None => Some f
                | Some g => if area g <? area f then Some f else Some g
                end) None frames.

(** What [Image.open] makes of the content of a file. *)
Definition decode_file (d : filedata) : option image :=
  match d with
  | Raw bytes => decode bytes
  | PngFile im => Some im
  | IcoFile frames => largest_frame frames
  end.

(** Frame selection of the library's icon-container writer: it walks
    [sorted(set(sizes))], skips every size that exceeds the image being
    saved (or 256), takes for a kept size the first supplied image of
    exactly that size (the image itself, then [append_images]) and
    otherwise a thumbnail of the image being saved. *)
Definition ico_frame_for (im : image) (provided : list image) (size : Size)
  : list image :=
  let '(width, height) := im_size im in
  if (size.1 >? width) || (size.2 >? height) || (size.1 >? 256) || (size.2 >? 256)
  then []
  else match find (fun p => size_eqb (im_size p) size) provided with
       | Some p => [p]
       | None => [thumbnail im size]
       end.

Definition ico_frames (im : image) (sizes : list Size)
           (append_images : list image) : list image :=
  flat_map (ico_frame_for im (im :: append_images)) (sorted_set sizes).

Definition default_ico_sizes : list Size :=
  [(16,16); (24,24); (32,32); (48,48); (64,64); (128,128); (256,256)].

Definition log (ev : Event Pixels) (w : world) : world :=
  {| files := files w; dirs := dirs w; stdout := stdout w;
     trace := trace w ++ [ev] |}.

Definition set_files (f : gmap string filedata) (w : world) : world :=
  {| files := f; dirs := dirs w; stdout := stdout w; trace := trace w |}.

(** ** The monad of script statements *)

Definition M (A : Type) : Type := world -> Result A * world.

Definition ret {A} (a : A) : M A := fun w => (Ok a, w).
Definition raise {A} (e : Exn) : M A := fun w => (Raise e, w).
Definition bind {A B} (m : M A) (k : A -> M B) : M B :=
  fun w => match m w with
           | (Ok a, w1) => k a w1
           | (Raise e, w1) => (Raise e, w1)
           end.

Notation "x <- m ;; k" := (bind m (fun x => k))
  (at level 100, m at next level, right associativity).
Notation "m ;; k" := (bind m (fun _ => k))
  (at level 100, right associativity).

(** [for x in l: body] *)
Fixpoint for_each {A} (l : list A) (body : A -> M unit) : M unit :=
  match l with
  | [] => ret tt
  | x :: l' => body x ;; for_each l' body
  end.

(** ** Library and system calls *)

(** [os.makedirs(p, exist_ok=...)] for a single path component. *)
Definition makedirs (p : string) (exist_ok : bool) : M unit := fun w =>
  let w := log (EvMakedirs p) w in
  if decide (p ∈ dirs w) then
    if exist_ok then (Ok tt, w) else (Raise (FileExistsError p), w)
  else if decide (is_Some (files w !! p)) then (Raise (FileExistsError p), w)
  else if mkdir_denied p then (Raise (os_error (mkdir_errno p) p), w)
  else (Ok tt, {| files := files w; dirs := {[p]} ∪ dirs w;
                  stdout := stdout w; trace := trace w |}).

(** Whether [Image.open] identifies the content of a file as an image:
    whatever decodes does, and so does a truncated or corrupt file whose
    header is recognised. *)
Definition identified (d : filedata) : bool :=
  match decode_file d with
  | Some _ => true
  | None => match d with
            | Raw bytes => recognised bytes
            | PngFile _ | IcoFile _ => false
            end
  end.

(** [Image.open(p)]: opens the file and identifies it from its header.
    The pixel data is not decoded yet; the result stands for the lazy
    image, the path it came from and the content to load. *)
Definition Image_open (p : string) : M (string * filedata) := fun w =>
  let w := log (EvOpen p) w in
  match files w !! p with
  | None =>
      if decide (p ∈ dirs w) then (Raise (IsADirectoryError p), w)
      else (Raise (FileNotFoundError p), w)
  | Some d =>
      if read_denied p then (Raise (os_error (read_errno p) p), w)
      else if identified d then (Ok (p, d), w)
      else (Raise (UnidentifiedImageError p), w)
  end.

(** [opened.convert(mode)] on a freshly opened image: loads the pixel
    data, which raises a plain [OSError] when the file is truncated or
    corrupt, then converts. *)
Definition Image_convert (opened : string * filedata) (mode : string) : M image :=
  fun w =>
    match decode_file opened.2 with
    | Some im => (Ok (convert im mode), w)
    | None => (Raise (OSError opened.1), w)
    end.

Definition parent_exists (w : world) (p : string) : bool :=
  String.eqb (dirname p) "" || bool_decide (dirname p ∈ dirs w).

(** Creating or truncating the file at [p] and writing [d] to it. *)
Definition write_file (p : string) (d : filedata) : M unit := fun w =>
  let w := log (EvSave p d) w in
  if parent_exists w p then
    match write_fault w p with
    | Some leftover =>
        (Raise (os_error (write_errno w p) p),
         set_files (partial_alter (fun _ => leftover) p (files w)) w)
    | None => (Ok tt, set_files (<[p := d]> (files w)) w)
    end
  else (Raise (FileNotFoundError p), w).

(** [im.save(p, format=..., sizes=..., append_images=...)] *)
Definition save (im : image) (p : string) (format : option Format)
           (sizes : option (list Size)) (append_images : list image) : M unit :=
  match (match format with Some f => Some f | None => format_of_ext p end) with
  | None => raise (ValueError p)
  | Some PNG => write_file p (PngFile im)
  | Some ICO =>
      write_file p
        (IcoFile (ico_frames im (default default_ico_sizes sizes) append_images))
  end.

(** [print(s)] *)
Definition print (s : string) : M unit := fun w =>
  (Ok tt, {| files := files w; dirs := dirs w;
             stdout := stdout w +:+ s +:+ nl;
             trace := trace w ++ [EvPrint s] |}).

(** ** The script *)

Definition SOURCE : string := "icon.png".
Definition OUTPUT_DIR : string := "favicons".

Definition sizes : list Z := [16; 32; 48; 64; 128; 180; 192; 512].
Definition ico_sizes : list Size := [(16,16); (32,32); (48,48); (64,64)].

Definition png_name (size : Z) : string :=
  "favicon-" +:+ str size +:+ "x" +:+ str size +:+ ".png".

Definition summary : string :=
  nl +:+ "All favicons saved to '" +:+ OUTPUT_DIR +:+ "/'".

Definition main : M unit :=
  makedirs OUTPUT_DIR true ;;
  opened <- Image_open SOURCE ;;
  img <- Image_convert opened "RGBA" ;;
  for_each sizes (fun size =>
    let resized := resize img (size, size) LANCZOS in
    save resized (path_join OUTPUT_DIR (png_name size)) None None [] ;;
    print ("Created " +:+ png_name size)) ;;
  let ico_images := map (fun s => resize img s LANCZOS) ico_sizes in
  match ico_images with
  | first :: others =>
      save first (path_join OUTPUT_DIR "favicon.ico") (Some ICO) (Some ico_sizes) others
  | [] => raise IndexError
  end ;;
  print "Created favicon.ico" ;;
  save (resize img (180, 180) LANCZOS)
       (path_join OUTPUT_DIR "apple-touch-icon.png") None None [] ;;
  print "Created apple-touch-icon.png" ;;
  print summary.

(** ** Vocabulary of the specification *)

(** The first two statements of the script: directory, then decoding. *)
Definition load : M image :=
  makedirs OUTPUT_DIR true ;;
  opened <- Image_open SOURCE ;;
  Image_convert opened "RGBA".

(** An output of the script: where it goes, what is written there and
    the progress line printed after it. *)
Record Artifact := mkArtifact {
  a_path : string;
  a_data : filedata;
  a_line : string
}.

Definition square_png (img : image) (size : Z) : Artifact :=
  {| a_path := path_join OUTPUT_DIR (png_name size);
     a_data := PngFile (resize img (size, size) LANCZOS);
     a_line := "Created " +:+ png_name size |}.

Definition icon_container (img : image) : Artifact :=
  {| a_path := path_join OUTPUT_DIR "favicon.ico";
     a_data := IcoFile (ico_frames (resize img (16,16) LANCZOS) ico_sizes
                          (map (fun s => resize img s LANCZOS) (tail ico_sizes)));
     a_line := "Created favicon.ico" |}.

Definition touch_icon (img : image) : Artifact :=
  {| a_path := path_join OUTPUT_DIR "apple-touch-icon.png";
     a_data := PngFile (resize img (180, 180) LANCZOS);
     a_line := "Created apple-touch-icon.png" |}.

(** The outputs in program order. *)
Definition artifacts (img : image) : list Artifact :=
  map (square_png img) sizes ++ [icon_container img; touch_icon img].

(** Write one artifact, then announce it. *)
Definition emit (a : Artifact) : M unit :=
  write_file (a_path a) (a_data a) ;; print (a_line a).

Definition emit_all (arts : list Artifact) : M unit := for_each arts emit.

Definition output_paths : list string :=
  map (fun size => path_join OUTPUT_DIR (png_name size)) sizes
    ++ [path_join OUTPUT_DIR "favicon.ico";
        path_join OUTPUT_DIR "apple-touch-icon.png"].

(** The history a list of completed artifacts leaves behind. *)
Definition events_of (arts : list Artifact) : list (Event Pixels) :=
  flat_map (fun a => [EvSave (a_path a) (a_data a); EvPrint (a_line a)]) arts.

(** The files after all of [arts] have been written over [f]. *)
Definition write_all (arts : list Artifact) (f : gmap string filedata)
  : gmap string filedata :=
  fold_left (fun f a => <[a_path a := a_data a]> f) arts f.

(** The world once the directory exists and the source has been opened. *)
Definition loaded (w : world) : world :=
  {| files := files w; dirs := {[OUTPUT_DIR]} ∪ dirs w; stdout := stdout w;
     trace := trace w ++ [EvMakedirs OUTPUT_DIR; EvOpen SOURCE] |}.

(** The world once all of [arts] have been written and announced. *)
Definition emitted (arts : list Artifact) (w : world) : world :=
  {| files := write_all arts (files w); dirs := dirs w;
     stdout := stdout w +:+ unlines (map a_line arts);
     trace := trace w ++ events_of arts |}.

(** The world at the end of a run in which nothing was refused. *)
Definition completed (img : image) (w : world) : world :=
  let w1 := emitted (artifacts img) (loaded w) in
  {| files := files w1; dirs := dirs w1;
     stdout := stdout w1 +:+ summary +:+ nl;
     trace := trace w1 ++ [EvPrint summary] |}.

(** The save attempted on an artifact. *)
Definition save_event (a : Artifact) : Event Pixels :=
  EvSave (a_path a) (a_data a).

(** What the run appended to the history of I/O attempts. *)
Definition history_since (w w' : world) : list (Event Pixels) :=
  drop (length (trace w)) (trace w').

(** Saves and prints, as opposed to the directory and decoding steps. *)
Definition is_output_event (ev : Event Pixels) : bool :=
  match ev with
  | EvSave _ _ | EvPrint _ => true
  | EvMakedirs _ | EvOpen _ => false
  end.

(** The conditions on the surroundings under which nothing is refused. *)
Definition no_write_faults : Prop := forall w p, write_fault w p = None.

Definition can_make_output_dir (w : world) : Prop :=
  OUTPUT_DIR ∈ dirs w \/ (files w !! OUTPUT_DIR = None /\ mkdir_denied OUTPUT_DIR = false).

(** What [os.makedirs] raises when it raises. *)
Definition directory_error (w : world) : Exn :=
  match files w !! OUTPUT_DIR with
  | Some _ => FileExistsError OUTPUT_DIR
  | None => os_error (mkdir_errno OUTPUT_DIR) OUTPUT_DIR
  end.

(** The source decodes to [im]. *)
Definition source_decodes (w : world) (im : image) : Prop :=
  exists d, files w !! SOURCE = Some d /\ read_denied SOURCE = false
            /\ decode_file d = Some im.

(** The source is missing, unreadable or not a decodable raster. *)
Definition source_unusable (w : world) : Prop :=
  files w !! SOURCE = None \/ read_denied SOURCE = true
  \/ exists d, files w !! SOURCE = Some d /\ decode_file d = None.

(** The exceptions of the decode stage: what opening and loading the
    source can raise. *)
Definition decode_stage (e : Exn) : Prop :=
  e = FileNotFoundError SOURCE \/ e = IsADirectoryError SOURCE
  \/ e = os_error (read_errno SOURCE) SOURCE
  \/ e = UnidentifiedImageError SOURCE \/ e = OSError SOURCE.

(** The exception the decode stage raises on an unusable source, cause by
    cause: a missing file, a directory in its place, a refused read, no
    image at all, a truncated or corrupt image. *)
Definition source_error (w : world) : Exn :=
  match files w !! SOURCE with
  | None =>
      if decide (SOURCE ∈ dirs w) then IsADirectoryError SOURCE
      else FileNotFoundError SOURCE
  | Some d =>
      if read_denied SOURCE then os_error (read_errno SOURCE) SOURCE
      else if identified d then OSError SOURCE
      else UnidentifiedImageError SOURCE
  end.

(** Every write of [arts], made in sequence from [w], is accepted. *)
Fixpoint accepted (arts : list Artifact) (w : world) : Prop :=
  match arts with
  | [] => True
  | a :: arts' =>
      write_fault (log (save_event a) w) (a_path a) = None
      /\ accepted arts' (emitted [a] w)
  end.

(** The world left by the refusal of the write of [a], attempted in [w]. *)
Definition refused_at (a : Artifact) (leftover : option filedata) (w : world) : world :=
  set_files (partial_alter (fun _ => leftover) (a_path a) (files w))
            (log (save_event a) w).

(** The console of a successful run as the specification words it:
    the eight progress lines, the container line, a touch-icon line and
    the summary line, and nothing else. *)
Definition claimed_console (touch_line summary_line : string) : list string :=
  map (fun size => "Created " +:+ png_name size) sizes
    ++ ["Created favicon.ico"; touch_line; summary_line].

End Generator.

(** ** A concrete platform, for running the script *)

Module Demo.

(** Rasters carry one number; resampling mixes the target width in.  One
    byte decodes to a 800x600 picture, more bytes are a picture cut short,
    no byte is no picture. *)
Definition imaging : Imaging :=
  {| Pixels := Z;
     resample := fun _ _ dst px => px + dst.1;
     convert_pixels := fun _ _ px => px;
     decode := fun bytes =>
                 match bytes with
                 | [_] => Some (mkImage "RGB" (800, 600) 7)
                 | _ => None
                 end;
     recognised := fun bytes =>
                     match bytes with
                     | [] => false
                     | _ :: _ => true
                     end;
     thumbnail := fun im _ => im |}.

(** Nothing is ever refused. *)
Definition healthy : @System imaging :=
  {| write_fault := fun _ _ => None;
     write_errno := fun _ _ => EIO;
     mkdir_denied := fun _ => false;
     mkdir_errno := fun _ => EIO;
     read_denied := fun _ => false;
     read_errno := fun _ => EIO |}.

(** The disk is full when the third square PNG is written; a fragment
    stays behind. *)
Definition flaky : @System imaging :=
  {| write_fault := fun _ p =>
       if String.eqb p "favicons/favicon-48x48.png" then Some (Some (Raw []))
       else None;
     write_errno := fun _ _ => ENOSPC;
     mkdir_denied := fun _ => false;
     mkdir_errno := fun _ => EIO;
     read_denied := fun _ => false;
     read_errno := fun _ => EIO |}.

(** A working directory with a 800x600 source and nothing else. *)
Definition fresh : World (@Pixels imaging) :=
  mkWorld {[ "icon.png" := Raw [Byte.x89] ]} ∅ "" [].

(** The output directory exists and holds an unrelated file. *)
Definition lived_in : World (@Pixels imaging) :=
  mkWorld (<[ "favicons/notes.txt" := Raw [Byte.x41] ]>
             {[ "icon.png" := Raw [Byte.x89] ]})
          {[ "favicons" ]} "" [].

(** No source at all. *)
Definition no_source : World (@Pixels imaging) :=
  mkWorld ∅ ∅ "" [].

(** What the decoder makes of the source: 800x600, not square. *)
Definition source : Image (@Pixels imaging) := mkImage "RGB" (800, 600) 7.

(** The script on the healthy and on the flaky system. *)
Definition run : World (@Pixels imaging) -> Result unit * World (@Pixels imaging) :=
  @main imaging healthy.

Definition run_flaky : World (@Pixels imaging) -> Result unit * World (@Pixels imaging) :=
  @main imaging flaky.

(** The disk refuses the third square PNG early on only: once the history
    holds ten events the same write goes through. *)
Definition transient : @System imaging :=
  {| write_fault := fun w p =>
       if String.eqb p "favicons/favicon-48x48.png" && (length (trace w) <? 10)%nat
       then Some None
       else None;
     write_errno := fun _ _ => ENOSPC;
     mkdir_denied := fun _ => false;
     mkdir_errno := fun _ => EIO;
     read_denied := fun _ => false;
     read_errno := fun _ => EIO |}.

Definition run_transient
  : World (@Pixels imaging) -> Result unit * World (@Pixels imaging) :=
  @main imaging transient.

(** A regular file sits where the output directory should go. *)
Definition blocked : World (@Pixels imaging) :=
  mkWorld (<[ "favicons" := Raw [Byte.x41] ]> {[ "icon.png" := Raw [Byte.x89] ]})
          ∅ "" [].

(** Everything is refused for lack of permission: making directories,
    reading, writing. *)
Definition locked : @System imaging :=
  {| write_fault := fun w p => Some (files w !! p);
     write_errno := fun _ _ => EACCES;
     mkdir_denied := fun _ => true;
     mkdir_errno := fun _ => EACCES;
     read_denied := fun _ => true;
     read_errno := fun _ => EACCES |}.

(** The disk is read-only: no directory can be made. *)
Definition read_only : @System imaging :=
  {| write_fault := fun w p => Some (files w !! p);
     write_errno := fun _ _ => EROFS;
     mkdir_denied := fun _ => true;
     mkdir_errno := fun _ => EROFS;
     read_denied := fun _ => false;
     read_errno := fun _ => EIO |}.

(** The output directory can be made but nothing may be written into
    it; a refused write leaves the path as it was. *)
Definition write_protected : @System imaging :=
  {| write_fault := fun w p => Some (files w !! p);
     write_errno := fun _ _ => EACCES;
     mkdir_denied := fun _ => false;
     mkdir_errno := fun _ => EIO;
     read_denied := fun _ => false;
     read_errno := fun _ => EIO |}.

(** The source is cut short: its header is recognised, its data does not
    load. *)
Definition truncated : World (@Pixels imaging) :=
  mkWorld {[ "icon.png" := Raw [Byte.x89; Byte.x50] ]} ∅ "" [].

End Demo.

(** ** Strings *)

Lemma append_cons (ch : ascii) (a b : string) :
  String ch a +:+ b = String ch (a +:+ b).
Proof. reflexivity. Qed.

Lemma append_assoc (a b c : string) : (a +:+ b) +:+ c = a +:+ (b +:+ c).
Proof.
  induction a as [|ch a IH]; [reflexivity |].
  now rewrite !append_cons, IH.
Qed.

Lemma append_empty_r (a : string) : a +:+ "" = a.
Proof.
  induction a as [|ch a IH]; [reflexivity |].
  now rewrite append_cons, IH.
Qed.

Lemma unlines_app (l1 l2 : list string) :
  unlines (l1 ++ l2) = unlines l1 +:+ unlines l2.
Proof.
  induction l1 as [|x l1 IH]; [reflexivity |].
  cbn [unlines app]. now rewrite IH, !append_assoc.
Qed.

Section Facts.
Context `{Sys : System}.
Local Abbreviation image := (Image Pixels).
Local Abbreviation filedata := (FileData Pixels).
Local Abbreviation world := (World Pixels).

(** ** Laws of the statement monad *)

Lemma bind_assoc {A B C} (m : M A) (k : A -> M B) (h : B -> M C) (w : world) :
  bind (bind m k) h w = bind m (fun a => bind (k a) h) w.
Proof. unfold bind. destruct (m w) as [[a|e] w1]; reflexivity. Qed.

Lemma bind_ext {A B} (m : M A) (k1 k2 : A -> M B) (w : world) :
  (forall a w', k1 a w' = k2 a w') -> bind m k1 w = bind m k2 w.
Proof. intros E. unfold bind. destruct (m w) as [[a|e] w1]; [apply E | reflexivity]. Qed.

Lemma bind_ext_l {A B} (m1 m2 : M A) (k : A -> M B) (w : world) :
  m1 w = m2 w -> bind m1 k w = bind m2 k w.
Proof. intros E. unfold bind. now rewrite E. Qed.

Lemma bind_ret_r {A} (m : M A) (w : world) : bind m ret w = m w.
Proof. unfold bind, ret. destruct (m w) as [[a|e] w1]; reflexivity. Qed.

Lemma bind_unit_ret_r (m : M unit) (w : world) : bind m (fun _ => ret tt) w = m w.
Proof. unfold bind, ret. destruct (m w) as [[[]|e] w1]; reflexivity. Qed.

Lemma for_each_ext {A} (l : list A) (f g : A -> M unit) :
  (forall x, In x l -> forall w, f x w = g x w) ->
  forall w, for_each l f w = for_each l g w.
Proof.
  induction l as [|x l IH]; intros E w; simpl; [reflexivity |].
  unfold bind. rewrite (E x (or_introl eq_refl)).
  destruct (g x w) as [[[]|e] w1]; [| reflexivity].
  apply IH. intros y Hy. apply E. now right.
Qed.

Lemma for_each_map {A B} (g : A -> B) (l : list A) (f : B -> M unit) (w : world) :
  for_each (map g l) f w = for_each l (fun x => f (g x)) w.
Proof.
  revert w. induction l as [|x l IH]; intros w; simpl; [reflexivity |].
  apply bind_ext. intros _ w'. apply IH.
Qed.

Lemma for_each_app {A} (l1 l2 : list A) (f : A -> M unit) (w : world) :
  for_each (l1 ++ l2) f w = bind (for_each l1 f) (fun _ => for_each l2 f) w.
Proof.
  revert w. induction l1 as [|x l1 IH]; intros w; simpl.
  - reflexivity.
  - rewrite bind_assoc. apply bind_ext. intros _ w'. apply IH.
Qed.

(** ** The script as load, artifacts, summary *)

Lemma png_path_format (size : Z) :
  In size sizes -> format_of_ext (path_join OUTPUT_DIR (png_name size)) = Some PNG.
Proof.
  unfold sizes. simpl.
  intros Hin. repeat (destruct Hin as [<- | Hin]; [vm_compute; reflexivity |]).
  destruct Hin.
Qed.

Lemma save_square_png (img : image) (size : Z) (w : world) :
  In size sizes ->
  bind (save (resize img (size, size) LANCZOS)
             (path_join OUTPUT_DIR (png_name size)) None None [])
       (fun _ => print ("Created " +:+ png_name size)) w
  = emit (square_png img size) w.
Proof.
  intros Hin. unfold emit, save. rewrite (png_path_format size Hin). reflexivity.
Qed.

Lemma main_structure (w : world) :
  main w = bind load (fun img =>
             bind (emit_all (artifacts img)) (fun _ => print summary)) w.
Proof.
  unfold main, load.
  rewrite (bind_assoc (makedirs OUTPUT_DIR true)). apply bind_ext. intros _ w1.
  rewrite (bind_assoc (Image_open SOURCE)). apply bind_ext. intros opened w1'.
  apply bind_ext. intros img w2.
  unfold emit_all, artifacts.
  transitivity
    (bind (for_each sizes (fun size => emit (square_png img size)))
       (fun _ => bind (emit (icon_container img))
          (fun _ => bind (emit (touch_icon img)) (fun _ => print summary))) w2).
  - etransitivity.
    { apply bind_ext_l.
      apply (for_each_ext sizes _ (fun x => emit (square_png img x))).
      intros size Hin w'. now apply save_square_png. }
    apply bind_ext. intros _ w3.
    unfold emit.
    rewrite (bind_assoc (write_file (a_path (icon_container img)) _)).
    apply bind_ext. intros _ w4. apply bind_ext. intros _ w5.
    rewrite (bind_assoc (write_file (a_path (touch_icon img)) _)).
    reflexivity.
  - symmetry.
    unfold bind at 1.
    rewrite for_each_app. unfold bind at 1. rewrite for_each_map.
    unfold bind at 1.
    destruct (for_each sizes _ w2) as [[[]|e] w3]; [| reflexivity].
    cbn [for_each]. unfold bind, ret.
    destruct (emit (icon_container img) w3) as [[[]|e] w4]; [| reflexivity].
    destruct (emit (touch_icon img) w4) as [[[]|e] w5]; reflexivity.
Qed.


(** ** System calls *)

Lemma world_eta (w : world) :
  {| files := files w; dirs := dirs w; stdout := stdout w; trace := trace w |} = w.
Proof. destruct w; reflexivity. Qed.

Lemma write_file_cases (p : string) (d : filedata) (w : world) :
  write_file p d w = (Ok tt, set_files (<[p := d]> (files w)) (log (EvSave p d) w))
  \/ exists e f',
       write_file p d w = (Raise e, set_files f' (log (EvSave p d) w))
       /\ forall q, q <> p -> f' !! q = files w !! q.
Proof.
  unfold write_file. cbv zeta.
  destruct (parent_exists (log (EvSave p d) w) p).
  - destruct (write_fault (log (EvSave p d) w) p) as [leftover|].
    + right. eexists _, _. split; [reflexivity |].
      intros q Hq. cbn [files log]. now rewrite lookup_partial_alter_ne.
    + now left.
  - right. exists (FileNotFoundError p), (files w). split; [reflexivity | reflexivity].
Qed.

Lemma write_file_ok (p : string) (d : filedata) (w : world) :
  no_write_faults -> dirname p ∈ dirs w ->
  write_file p d w = (Ok tt, set_files (<[p := d]> (files w)) (log (EvSave p d) w)).
Proof.
  intros NF Hdir. unfold write_file, parent_exists. cbv zeta. cbn [dirs log].
  rewrite (bool_decide_eq_true_2 _ Hdir), orb_true_r, NF. reflexivity.
Qed.

(** ** Loading *)

Lemma makedirs_ok (w : world) :
  can_make_output_dir w ->
  makedirs OUTPUT_DIR true w
  = (Ok tt, {| files := files w; dirs := {[OUTPUT_DIR]} ∪ dirs w; stdout := stdout w;
               trace := trace w ++ [EvMakedirs OUTPUT_DIR] |}).
Proof.
  intros Hcan. unfold makedirs. cbv zeta. cbn [dirs files log stdout trace].
  destruct (decide (OUTPUT_DIR ∈ dirs w)) as [Hin|Hnin].
  - unfold log. rewrite (subseteq_union_1_L {[OUTPUT_DIR]} (dirs w))
      by (now apply singleton_subseteq_l).
    reflexivity.
  - destruct Hcan as [Hin | [Hfile Hden]]; [contradiction |].
    rewrite Hfile, Hden.
    destruct (decide (is_Some (@None filedata))) as [[x Hx]|_]; [discriminate | reflexivity].
Qed.

Lemma makedirs_inv (w w1 : world) :
  makedirs OUTPUT_DIR true w = (Ok tt, w1) -> can_make_output_dir w.
Proof.
  unfold makedirs, can_make_output_dir. cbv zeta. cbn [dirs files log].
  destruct (decide (OUTPUT_DIR ∈ dirs w)) as [Hin|Hnin]; [now left |].
  destruct (decide (is_Some (files w !! OUTPUT_DIR))) as [Hs|Hn]; [discriminate |].
  destruct (mkdir_denied OUTPUT_DIR) eqn:Hden; [discriminate |].
  intros _. right. split; [| reflexivity].
  destruct (files w !! OUTPUT_DIR) eqn:E; [| reflexivity].
  exfalso. apply Hn. eauto.
Qed.

Lemma makedirs_fail (w w1 : world) (e : Exn) :
  makedirs OUTPUT_DIR true w = (Raise e, w1) ->
  w1 = log (EvMakedirs OUTPUT_DIR) w /\ ~ can_make_output_dir w.
Proof.
  unfold makedirs, can_make_output_dir. cbv zeta. cbn [dirs files log].
  destruct (decide (OUTPUT_DIR ∈ dirs w)) as [Hin|Hnin]; [discriminate |].
  destruct (decide (is_Some (files w !! OUTPUT_DIR))) as [Hs|Hn].
  - intros [= <- <-]. split; [reflexivity |].
    intros [Hin | [Hnone _]]; [contradiction |].
    rewrite Hnone in Hs. destruct Hs as [x Hx]. discriminate.
  - destruct (mkdir_denied OUTPUT_DIR) eqn:Hden; [| discriminate].
    intros [= <- <-]. split; [reflexivity |].
    intros [Hin | [_ Hd]]; [contradiction | discriminate].
Qed.

Lemma open_ok (w : world) (im : image) :
  source_decodes w im ->
  bind (Image_open SOURCE) (fun opened => Image_convert opened "RGBA") w
  = (Ok (convert im "RGBA"), log (EvOpen SOURCE) w).
Proof.
  intros (d & Hd & Hr & Hdec).
  unfold bind, Image_open, Image_convert, identified. cbv zeta. cbn [files log].
  rewrite Hd, Hr, Hdec. cbn [snd]. now rewrite Hdec.
Qed.

Lemma open_unusable (w : world) :
  source_unusable w ->
  bind (Image_open SOURCE) (fun opened => Image_convert opened "RGBA") w
  = (Raise (source_error w), log (EvOpen SOURCE) w).
Proof.
  intros Hbad.
  unfold bind, Image_open, Image_convert, source_error. cbv zeta. cbn [files dirs log].
  destruct (files w !! SOURCE) as [d|] eqn:Hd.
  - destruct (read_denied SOURCE) eqn:Hr; [reflexivity |].
    destruct (identified d); [| reflexivity]. cbn [fst snd].
    destruct (decode_file d) as [im|] eqn:Hdec; [| reflexivity].
    destruct Hbad as [Hnone | [Hden | (d' & Hd' & Hdec')]]; congruence.
  - destruct (decide (SOURCE ∈ dirs w)); reflexivity.
Qed.

Lemma source_error_stage (w : world) : decode_stage (source_error w).
Proof.
  unfold decode_stage, source_error.
  destruct (files w !! SOURCE) as [d|].
  - destruct (read_denied SOURCE); [tauto |]. destruct (identified d); tauto.
  - destruct (decide (SOURCE ∈ dirs w)); tauto.
Qed.

Lemma source_error_loaded (w : world) : source_error (loaded w) = source_error w.
Proof.
  unfold source_error. cbn [files dirs loaded].
  destruct (files w !! SOURCE); [reflexivity |].
  destruct (decide (SOURCE ∈ dirs w)) as [Hin|Hnin];
    destruct (decide (SOURCE ∈ {[OUTPUT_DIR]} ∪ dirs w)) as [Hin'|Hnin']; try reflexivity.
  - exfalso. apply Hnin'. now apply elem_of_union_r.
  - exfalso. apply elem_of_union in Hin' as [Hin' | Hin']; [| contradiction].
    apply elem_of_singleton in Hin'. discriminate.
Qed.

Lemma source_decodes_files (w w1 : world) (im : image) :
  files w1 !! SOURCE = files w !! SOURCE ->
  source_decodes w im -> source_decodes w1 im.
Proof. intros E (d & Hd & Hr). exists d. now rewrite E. Qed.

Lemma source_cases (w : world) :
  source_unusable w \/ exists im, source_decodes w im.
Proof.
  unfold source_unusable, source_decodes.
  destruct (files w !! SOURCE) as [d|] eqn:Hd; [| now left; left].
  destruct (read_denied SOURCE) eqn:Hr; [now left; right; left |].
  destruct (decode_file d) as [im|] eqn:Hdec.
  - right. exists im, d. auto.
  - left. right. right. exists d. auto.
Qed.

Lemma source_exclusive (w : world) (im : image) :
  source_decodes w im -> source_unusable w -> False.
Proof.
  intros (d & Hd & Hr & Hdec) [Hnone | [Hden | (d' & Hd' & Hdec')]]; try congruence.
Qed.

Lemma load_ok (w : world) (im : image) :
  can_make_output_dir w -> source_decodes w im ->
  load w = (Ok (convert im "RGBA"), loaded w).
Proof.
  intros Hcan Hsrc. unfold load, bind at 1. rewrite (makedirs_ok w Hcan).
  erewrite open_ok by (eapply source_decodes_files; [| exact Hsrc]; reflexivity).
  unfold loaded, log. cbn [files dirs stdout trace]. now rewrite <- app_assoc.
Qed.

Lemma load_source_error (w : world) :
  can_make_output_dir w -> source_unusable w ->
  load w = (Raise (source_error w), loaded w).
Proof.
  intros Hcan Hsrc. unfold load, bind at 1. rewrite (makedirs_ok w Hcan).
  rewrite open_unusable by exact Hsrc.
  rewrite <- (source_error_loaded w).
  unfold source_error, loaded, log. cbn [files dirs stdout trace].
  now rewrite <- app_assoc.
Qed.

Lemma load_unusable (w : world) :
  can_make_output_dir w -> source_unusable w ->
  exists e, decode_stage e /\ load w = (Raise e, loaded w).
Proof.
  intros Hcan Hsrc. exists (source_error w).
  split; [apply source_error_stage | now apply load_source_error].
Qed.

Lemma load_no_dir (w : world) :
  ~ can_make_output_dir w ->
  exists e, load w = (Raise e, log (EvMakedirs OUTPUT_DIR) w).
Proof.
  intros Hno. unfold load, bind at 1.
  destruct (makedirs OUTPUT_DIR true w) as [[[]|e] w1] eqn:E.
  - apply makedirs_inv in E. contradiction.
  - apply makedirs_fail in E as [-> _]. eauto.
Qed.

(** ** Writing a list of artifacts *)

Lemma write_all_cons (a : Artifact) (arts : list Artifact) (f : gmap string filedata) :
  write_all (a :: arts) f = write_all arts (<[a_path a := a_data a]> f).
Proof. reflexivity. Qed.

Lemma write_all_lookup_other (arts : list Artifact) (f : gmap string filedata) (q : string) :
  ~ In q (map a_path arts) -> write_all arts f !! q = f !! q.
Proof.
  revert f. induction arts as [|a arts IH]; intros f Hq; [reflexivity |].
  rewrite write_all_cons, IH by (intros Hin; apply Hq; now right).
  apply lookup_insert_ne. intros E. apply Hq. now left.
Qed.

Lemma write_all_lookup (arts : list Artifact) (f : gmap string filedata) (a : Artifact) :
  List.NoDup (map a_path arts) -> In a arts ->
  write_all arts f !! a_path a = Some (a_data a).
Proof.
  revert f. induction arts as [|b arts IH]; intros f Hnd Hin; [destruct Hin |].
  cbn [map] in Hnd. apply List.NoDup_cons_iff in Hnd as [Hfresh Hnd].
  rewrite write_all_cons. destruct Hin as [-> | Hin].
  - rewrite write_all_lookup_other by exact Hfresh. apply lookup_insert_eq.
  - now apply IH.
Qed.

Lemma write_all_idem (arts : list Artifact) (f : gmap string filedata) :
  List.NoDup (map a_path arts) -> write_all arts (write_all arts f) = write_all arts f.
Proof.
  intros Hnd. apply map_eq. intros q.
  destruct (in_dec string_dec q (map a_path arts)) as [Hin | Hnin].
  - apply in_map_iff in Hin as (a & <- & Hin).
    now rewrite !write_all_lookup.
  - now rewrite write_all_lookup_other.
Qed.

Lemma emit_all_ok (arts : list Artifact) (w : world) :
  no_write_faults ->
  (forall a, In a arts -> dirname (a_path a) ∈ dirs w) ->
  emit_all arts w = (Ok tt, emitted arts w).
Proof.
  intros NF. revert w. induction arts as [|a arts IH]; intros w Hdirs.
  - unfold emit_all, emitted. cbn [for_each write_all fold_left map unlines events_of flat_map].
    unfold ret. rewrite append_empty_r, app_nil_r. now rewrite world_eta.
  - unfold emit_all. cbn [for_each]. unfold bind at 1. unfold emit at 1, bind at 1.
    rewrite write_file_ok by (auto using in_eq). unfold print at 1.
    fold (emit_all arts). rewrite IH by (intros b Hb; apply Hdirs; now right).
    unfold emitted, set_files, log. cbn [files dirs stdout trace map unlines events_of flat_map].
    rewrite write_all_cons, !append_assoc, <- !app_assoc. reflexivity.
Qed.

Lemma emit_all_ok_inv (arts : list Artifact) (w w' : world) :
  emit_all arts w = (Ok tt, w') -> w' = emitted arts w.
Proof.
  revert w. induction arts as [|a arts IH]; intros w.
  - unfold emit_all, emitted. cbn [for_each write_all fold_left map unlines events_of flat_map].
    unfold ret. rewrite append_empty_r, app_nil_r, world_eta. now intros [= <-].
  - unfold emit_all. cbn [for_each]. unfold bind at 1. unfold emit at 1, bind at 1.
    destruct (write_file_cases (a_path a) (a_data a) w) as [-> | (e & f' & -> & _)];
      [| discriminate].
    unfold print at 1. fold (emit_all arts). intros E. apply IH in E as ->.
    unfold emitted, set_files, log. cbn [files dirs stdout trace map unlines events_of flat_map].
    rewrite write_all_cons, !append_assoc, <- !app_assoc. reflexivity.
Qed.

(** A run over [arts] stops at the first refused write: the artifacts
    before it are written and announced, the refused one is attempted
    once, and nothing after it is touched. *)
Lemma emit_all_fail (arts : list Artifact) (w w' : world) (e : Exn) :
  emit_all arts w = (Raise e, w') ->
  exists done failed rest,
    arts = done ++ failed :: rest
    /\ dirs w' = dirs w
    /\ stdout w' = stdout w +:+ unlines (map a_line done)
    /\ trace w' = trace w ++ events_of done ++ [save_event failed]
    /\ forall q, q <> a_path failed -> files w' !! q = write_all done (files w) !! q.
Proof.
  revert w. induction arts as [|a arts IH]; intros w.
  - unfold emit_all. cbn [for_each]. unfold ret. discriminate.
  - unfold emit_all. cbn [for_each]. unfold bind at 1. unfold emit at 1, bind at 1.
    destruct (write_file_cases (a_path a) (a_data a) w) as [-> | (e' & f' & -> & Hf')].
    + unfold print at 1. fold (emit_all arts). intros E.
      apply IH in E as (done & failed & rest & -> & Hd & Hs & Ht & Hf).
      exists (a :: done), failed, rest.
      cbn [files dirs stdout trace set_files log] in Hd, Hs, Ht, Hf.
      repeat split.
      * exact Hd.
      * rewrite Hs. cbn [map unlines]. now rewrite !append_assoc.
      * rewrite Ht. cbn [events_of flat_map]. now rewrite <- !app_assoc.
      * intros q Hq. rewrite (Hf q Hq). now rewrite write_all_cons.
    + intros [= <- <-]. exists [], a, arts.
      cbn [files dirs stdout trace set_files log map unlines events_of flat_map app].
      repeat split.
      * now rewrite append_empty_r.
      * exact Hf'.
Qed.

(** ** Outcomes of the script *)

Lemma print_summary (w : world) :
  print summary w = (Ok tt, {| files := files w; dirs := dirs w;
                               stdout := stdout w +:+ summary +:+ nl;
                               trace := trace w ++ [EvPrint summary] |}).
Proof. reflexivity. Qed.

Lemma output_dirnames (img : image) (a : Artifact) :
  In a (artifacts img) -> dirname (a_path a) = OUTPUT_DIR.
Proof.
  unfold artifacts, sizes. cbn [map app]. intros Hin.
  repeat (destruct Hin as [<- | Hin]; [vm_compute; reflexivity |]).
  destruct Hin.
Qed.

Lemma artifact_paths (img : image) : map a_path (artifacts img) = output_paths.
Proof. reflexivity. Qed.

Lemma output_paths_nodup : List.NoDup output_paths.
Proof.
  apply NoDup_ListNoDup. apply (bool_decide_unpack _). vm_compute. exact I.
Qed.

Lemma source_not_output : ~ In SOURCE output_paths.
Proof.
  intros Hin. apply list_elem_of_In in Hin.
  revert Hin. apply (bool_decide_unpack _). vm_compute. exact I.
Qed.

Lemma main_ok (w : world) (im : image) :
  no_write_faults -> can_make_output_dir w -> source_decodes w im ->
  main w = (Ok tt, completed (convert im "RGBA") w).
Proof.
  intros NF Hcan Hsrc. rewrite main_structure. unfold bind at 1.
  rewrite (load_ok w im Hcan Hsrc). unfold bind.
  rewrite emit_all_ok; [reflexivity | exact NF |].
  intros a Ha. rewrite (output_dirnames _ a Ha). cbn [dirs loaded]. apply elem_of_union_l, elem_of_singleton. reflexivity.
Qed.

Lemma can_make_output_dir_dec (w : world) :
  can_make_output_dir w \/ ~ can_make_output_dir w.
Proof.
  unfold can_make_output_dir.
  destruct (decide (OUTPUT_DIR ∈ dirs w)) as [Hin|Hnin]; [now left; left |].
  destruct (files w !! OUTPUT_DIR) as [d|]; [right; intros [?|[? _]]; [contradiction | discriminate] |].
  destruct (mkdir_denied OUTPUT_DIR); [right; intros [?|[_ ?]]; [contradiction | discriminate] |].
  left. right. split; reflexivity.
Qed.

(** The stage at which a run ends decides everything else about it. *)
Lemma main_cases (w : world) :
  (exists e, ~ can_make_output_dir w
             /\ main w = (Raise e, log (EvMakedirs OUTPUT_DIR) w))
  \/ (exists e, can_make_output_dir w /\ source_unusable w /\ decode_stage e
                /\ main w = (Raise e, loaded w))
  \/ (exists im, can_make_output_dir w /\ source_decodes w im
        /\ (main w = (Ok tt, completed (convert im "RGBA") w)
            \/ exists e w' written failed rest,
                 main w = (Raise e, w')
                 /\ artifacts (convert im "RGBA") = written ++ failed :: rest
                 /\ dirs w' = dirs (loaded w)
                 /\ stdout w' = stdout w +:+ unlines (map a_line written)
                 /\ trace w' = trace (loaded w) ++ events_of written ++ [save_event failed]
                 /\ forall q, q <> a_path failed ->
                              files w' !! q = write_all written (files w) !! q)).
Proof.
  destruct (can_make_output_dir_dec w) as [Hcan | Hno].
  - destruct (source_cases w) as [Hbad | [im Hsrc]].
    + right; left. destruct (load_unusable w Hcan Hbad) as (e & He & Hload).
      exists e. repeat split; try assumption.
      rewrite main_structure. unfold bind. now rewrite Hload.
    + right; right. exists im. repeat split; try assumption.
      assert (Hm : main w =
                   bind (emit_all (artifacts (convert im "RGBA")))
                        (fun _ => print summary) (loaded w)).
      { rewrite main_structure. unfold bind at 1. now rewrite (load_ok w im Hcan Hsrc). }
      rewrite Hm. unfold bind.
      destruct (emit_all (artifacts (convert im "RGBA")) (loaded w)) as [[[]|e] w2] eqn:E.
      * left. apply emit_all_ok_inv in E as ->. reflexivity.
      * right. apply emit_all_fail in E as (written & failed & rest & Ha & Hd & Hs & Ht & Hf).
        exists e, w2, written, failed, rest. repeat split; assumption.
  - left. destruct (load_no_dir w Hno) as (e & Hload). exists e. split; [exact Hno |].
    rewrite main_structure. unfold bind. now rewrite Hload.
Qed.

Lemma history_since_app (w w' : world) (evs : list (Event Pixels)) :
  trace w' = trace w ++ evs -> history_since w w' = evs.
Proof. intros E. unfold history_since. rewrite E. apply drop_app_length. Qed.

Lemma completed_trace (img : image) (w : world) :
  trace (completed img w)
  = trace w ++ [EvMakedirs OUTPUT_DIR; EvOpen SOURCE]
      ++ events_of (artifacts img) ++ [EvPrint summary].
Proof.
  unfold completed, emitted, loaded. cbn [trace]. now rewrite <- !app_assoc.
Qed.

Lemma completed_files (img : image) (w : world) :
  files (completed img w) = write_all (artifacts img) (files w).
Proof. reflexivity. Qed.

Lemma completed_lookup (img : image) (w : world) (a : Artifact) :
  In a (artifacts img) -> files (completed img w) !! a_path a = Some (a_data a).
Proof.
  intros Hin. rewrite completed_files. apply write_all_lookup; [| exact Hin].
  rewrite artifact_paths. apply output_paths_nodup.
Qed.

Lemma events_of_app (l1 l2 : list Artifact) :
  events_of (l1 ++ l2) = events_of l1 ++ events_of l2.
Proof. unfold events_of. apply flat_map_app. Qed.

Lemma events_of_saves (arts : list Artifact) (p : string) (d : filedata) :
  In (EvSave p d) (events_of arts) -> exists a, In a arts /\ p = a_path a /\ d = a_data a.
Proof.
  unfold events_of. rewrite in_flat_map. intros (a & Ha & [E | [E | []]]); [| discriminate].
  injection E as <- <-. eauto.
Qed.


Lemma main_source_error (w : world) :
  can_make_output_dir w -> source_unusable w ->
  main w = (Raise (source_error w), loaded w).
Proof.
  intros Hcan Hbad. rewrite main_structure. unfold bind.
  now rewrite (load_source_error w Hcan Hbad).
Qed.

(** ** Accepted and refused writes *)

Lemma emitted_nil (w : world) : emitted [] w = w.
Proof.
  unfold emitted. cbn [write_all fold_left map unlines events_of flat_map].
  rewrite append_empty_r, app_nil_r. apply world_eta.
Qed.

Lemma emitted_cons (a : Artifact) (arts : list Artifact) (w : world) :
  emitted arts (emitted [a] w) = emitted (a :: arts) w.
Proof.
  unfold emitted. cbn [files dirs stdout trace write_all fold_left map unlines
                       events_of flat_map app].
  rewrite append_empty_r, !append_assoc, <- !app_assoc. reflexivity.
Qed.

Lemma emit_accepted (a : Artifact) (w : world) :
  dirname (a_path a) ∈ dirs w ->
  write_fault (log (save_event a) w) (a_path a) = None ->
  emit a w = (Ok tt, emitted [a] w).
Proof.
  intros Hdir Hok. unfold emit, bind, write_file, parent_exists. cbv zeta.
  cbn [dirs log]. rewrite (bool_decide_eq_true_2 _ Hdir), orb_true_r.
  unfold save_event in Hok. rewrite Hok. unfold print, emitted, set_files, log.
  cbn [files dirs stdout trace write_all fold_left map unlines events_of flat_map app].
  rewrite append_empty_r, <- !app_assoc. reflexivity.
Qed.

Lemma emit_refused (a : Artifact) (leftover : option filedata) (w : world) :
  dirname (a_path a) ∈ dirs w ->
  write_fault (log (save_event a) w) (a_path a) = Some leftover ->
  emit a w = (Raise (os_error (write_errno (log (save_event a) w) (a_path a)) (a_path a)),
              refused_at a leftover w).
Proof.
  intros Hdir Hbad. unfold emit, bind, write_file, parent_exists. cbv zeta.
  cbn [dirs log]. rewrite (bool_decide_eq_true_2 _ Hdir), orb_true_r.
  unfold save_event in *. now rewrite Hbad.
Qed.

(** A refused write raises on the spot, whatever comes after it. *)
Lemma emit_all_refused (written rest : list Artifact) (failed : Artifact)
      (leftover : option filedata) (w : world) :
  (forall a, In a (written ++ failed :: rest) -> dirname (a_path a) ∈ dirs w) ->
  accepted written w ->
  write_fault (log (save_event failed) (emitted written w)) (a_path failed) = Some leftover ->
  emit_all (written ++ failed :: rest) w
  = (Raise (os_error (write_errno (log (save_event failed) (emitted written w))
                                  (a_path failed))
                     (a_path failed)),
     refused_at failed leftover (emitted written w)).
Proof.
  revert w. induction written as [|a written IH]; intros w Hdirs Hacc Hbad.
  - rewrite emitted_nil in *. cbn [app]. unfold emit_all. cbn [for_each]. unfold bind.
    rewrite (emit_refused failed leftover w); auto. apply Hdirs. now left.
  - destruct Hacc as [Hok Hacc]. cbn [app]. unfold emit_all. cbn [for_each].
    unfold bind at 1. rewrite (emit_accepted a w) by (auto; apply Hdirs; now left).
    fold (emit_all (written ++ failed :: rest)).
    rewrite <- (emitted_cons a written w) in *.
    apply IH; auto.
    intros b Hb. cbn [dirs emitted]. apply Hdirs. now right.
Qed.

Lemma emit_all_accepted (arts : list Artifact) (w : world) :
  (forall a, In a arts -> dirname (a_path a) ∈ dirs w) ->
  accepted arts w ->
  emit_all arts w = (Ok tt, emitted arts w).
Proof.
  revert w. induction arts as [|a arts IH]; intros w Hdirs Hacc.
  - rewrite emitted_nil. reflexivity.
  - destruct Hacc as [Hok Hacc]. unfold emit_all. cbn [for_each].
    unfold bind at 1. rewrite (emit_accepted a w) by (auto; apply Hdirs; now left).
    fold (emit_all arts). rewrite <- (emitted_cons a arts w). apply IH; auto.
    intros b Hb. cbn [dirs emitted]. apply Hdirs. now right.
Qed.

Lemma main_ok_inv (w w' : world) :
  main w = (Ok tt, w') ->
  exists im, can_make_output_dir w /\ source_decodes w im
             /\ w' = completed (convert im "RGBA") w.
Proof.
  intros E.
  destruct (main_cases w) as [(e & _ & Hm) | [(e & _ & _ & _ & Hm) | (im & Hcan & Hsrc & Hm)]];
    try congruence.
  destruct Hm as [Hm | (e & w2 & written & failed & rest & Hm & _)]; [| congruence].
  exists im. repeat split; try assumption. congruence.
Qed.

Lemma source_decodes_inj (w : world) (im1 im2 : image) :
  source_decodes w im1 -> source_decodes w im2 -> im1 = im2.
Proof. intros (d1 & H1 & _ & E1) (d2 & H2 & _ & E2). congruence. Qed.

Lemma square_png_path (size : Z) :
  path_join OUTPUT_DIR (png_name size)
  = "favicons/favicon-" +:+ str size +:+ "x" +:+ str size +:+ ".png".
Proof. reflexivity. Qed.

Lemma icon_container_frames (img : image) :
  a_data (icon_container img) = IcoFile [resize img (16, 16) LANCZOS].
Proof. reflexivity. Qed.

Lemma artifact_cases (img : image) (a : Artifact) :
  In a (artifacts img) ->
  (exists size, In size sizes /\ a = square_png img size)
  \/ a = icon_container img \/ a = touch_icon img.
Proof.
  unfold artifacts. rewrite in_app_iff, in_map_iff.
  intros [(size & <- & Hin) | [<- | [<- | []]]]; eauto.
Qed.

(** Every save the run attempts is the save of one of the artifacts. *)
Lemma main_saves (w : world) (p : string) (d : filedata) :
  In (EvSave p d) (history_since w (main w).2) ->
  exists im a, source_decodes w im /\ In a (artifacts (convert im "RGBA"))
               /\ p = a_path a /\ d = a_data a.
Proof.
  destruct (main_cases w) as [(e & _ & Hm) | [(e & _ & _ & _ & Hm) | (im & Hcan & Hsrc & Hm)]].
  - rewrite Hm. cbn [snd]. rewrite (history_since_app w _ [EvMakedirs OUTPUT_DIR]) by reflexivity.
    intros [E | []]. discriminate.
  - rewrite Hm. cbn [snd].
    rewrite (history_since_app w _ [EvMakedirs OUTPUT_DIR; EvOpen SOURCE]) by reflexivity.
    intros [E | [E | []]]; discriminate.
  - destruct Hm as [Hm | (e & w2 & written & failed & rest & Hm & Ha & _ & _ & Ht & _)];
      rewrite Hm; cbn [snd].
    + rewrite (history_since_app w _ _ (completed_trace _ w)).
      cbn [app]. intros [E | [E | Hin]]; try discriminate.
      apply in_app_iff in Hin as [Hin | [E | []]]; [| discriminate].
      apply events_of_saves in Hin as (a & Hin & -> & ->). eauto 6.
    + cbn [loaded trace] in Ht. rewrite <- app_assoc in Ht.
      rewrite (history_since_app w _ _ Ht).
      cbn [app]. intros [E | [E | Hin]]; try discriminate.
      apply in_app_iff in Hin as [Hin | [E | []]].
      * apply events_of_saves in Hin as (a & Hin & -> & ->).
        exists im, a. rewrite Ha, in_app_iff. auto.
      * injection E as <- <-. exists im, failed. rewrite Ha, in_app_iff.
        repeat split; auto using in_eq.
Qed.

(** ** The claims *)

(** C1: for a decodable source and with no write refused, the run walks
    the fixed list 16, 32, 48, 64, 128, 180, 192, 512 in that order; for
    each size S it saves the Lanczos resize of the source to SxS as
    favicons/favicon-SxS.png and then prints one progress line for it, so
    that the console receives the eight progress lines in that order; the
    file holds exactly that SxS raster at the end of the run. *)
Theorem square_pngs_generated (w : world) (im : image) :
  no_write_faults -> can_make_output_dir w -> source_decodes w im ->
  let img := convert im "RGBA" in
  sizes = [16; 32; 48; 64; 128; 180; 192; 512]
  /\ (main w).1 = Ok tt
  /\ (exists later,
        history_since w (main w).2
        = [EvMakedirs "favicons"; EvOpen "icon.png"]
          ++ flat_map (fun S =>
               [EvSave ("favicons/favicon-" +:+ str S +:+ "x" +:+ str S +:+ ".png")
                       (PngFile (resize img (S, S) LANCZOS));
                EvPrint ("Created favicon-" +:+ str S +:+ "x" +:+ str S +:+ ".png")])
               sizes
          ++ later)
  /\ (exists later_text,
        stdout (main w).2
        = stdout w
          +:+ unlines (map (fun S => "Created favicon-" +:+ str S +:+ "x" +:+ str S +:+ ".png")
                           sizes)
          +:+ later_text)
  /\ forall S, In S sizes ->
       files (main w).2 !! ("favicons/favicon-" +:+ str S +:+ "x" +:+ str S +:+ ".png")
       = Some (PngFile (resize img (S, S) LANCZOS))
       /\ im_size (resize img (S, S) LANCZOS) = (S, S).
Proof.
  intros NF Hcan Hsrc img.
  rewrite (main_ok w im NF Hcan Hsrc). cbn [fst snd]. fold img.
  split; [reflexivity |]. split; [reflexivity |]. split; [| split].
  - exists (events_of [icon_container img; touch_icon img] ++ [EvPrint summary]).
    rewrite (history_since_app w _ _ (completed_trace img w)).
    unfold artifacts. rewrite events_of_app, <- !app_assoc. reflexivity.
  - exists (unlines (map a_line [icon_container img; touch_icon img]) +:+ summary +:+ nl).
    cbn [stdout completed emitted loaded]. unfold artifacts.
    rewrite map_app, unlines_app, !append_assoc. reflexivity.
  - intros S HS. split; [| reflexivity].
    rewrite <- square_png_path.
    apply (completed_lookup img w (square_png img S)).
    unfold artifacts. rewrite in_app_iff. left. now apply in_map.
Qed.

(** C7: for a decodable source and with no write refused, the run saves
    the Lanczos resize of the source to 180x180 as
    favicons/apple-touch-icon.png, and that file decodes to a raster of
    exactly 180x180. *)
Theorem touch_icon_generated (w : world) (im : image) :
  no_write_faults -> can_make_output_dir w -> source_decodes w im ->
  let touch := resize (convert im "RGBA") (180, 180) LANCZOS in
  (main w).1 = Ok tt
  /\ In (EvSave "favicons/apple-touch-icon.png" (PngFile touch))
        (history_since w (main w).2)
  /\ files (main w).2 !! "favicons/apple-touch-icon.png" = Some (PngFile touch)
  /\ decode_file (PngFile touch) = Some touch
  /\ im_size touch = (180, 180).
Proof.
  intros NF Hcan Hsrc touch.
  rewrite (main_ok w im NF Hcan Hsrc). cbn [fst snd].
  set (img := convert im "RGBA").
  assert (Hin : In (touch_icon img) (artifacts img)).
  { unfold artifacts. rewrite in_app_iff. right. right. now left. }
  repeat split.
  - rewrite (history_since_app w _ _ (completed_trace img w)).
    rewrite !in_app_iff. right. left.
    apply in_flat_map. exists (touch_icon img).
    split; [exact Hin | now left].
  - apply (completed_lookup img w (touch_icon img) Hin).
Qed.

(** C6: whatever the source image and whatever the surroundings, every
    raster the run saves -- a PNG or a frame inside the icon container --
    is square, with the side its target fixes: S for favicon-SxS.png, one
    of the four container sizes for a frame of favicon.ico, 180 for the
    touch icon.  The size of the source plays no part. *)
Theorem outputs_are_square (w : world) (p : string) (d : filedata) (x : image) :
  In (EvSave p d) (history_since w (main w).2) -> In x (rasters d) ->
  is_square x
  /\ ((exists S, In S sizes
                 /\ p = "favicons/favicon-" +:+ str S +:+ "x" +:+ str S +:+ ".png"
                 /\ im_size x = (S, S))
      \/ (p = "favicons/favicon.ico" /\ In (im_size x) ico_sizes)
      \/ (p = "favicons/apple-touch-icon.png" /\ im_size x = (180, 180))).
Proof.
  intros Hev Hx.
  apply main_saves in Hev as (im & a & _ & Hin & -> & ->).
  apply artifact_cases in Hin as [(S & HS & ->) | [-> | ->]].
  - destruct Hx as [<- | []]. split; [reflexivity |]. left. exists S. auto.
  - rewrite icon_container_frames in Hx. destruct Hx as [<- | []].
    split; [reflexivity |]. right. left. split; [reflexivity | now left].
  - destruct Hx as [<- | []]. split; [reflexivity |]. right. right. auto.
Qed.


(** C3 (as amended): a run, whether it completes or stops early, changes
    no file outside the ten output paths -- the eight square PNGs, the
    icon container and the touch icon -- and attempts no save outside
    them. *)
Theorem only_outputs_written (w : world) (p : string) :
  ~ In p output_paths ->
  files (main w).2 !! p = files w !! p
  /\ (forall d, ~ In (EvSave p d) (history_since w (main w).2))
  /\ output_paths
     = ["favicons/favicon-16x16.png"; "favicons/favicon-32x32.png";
        "favicons/favicon-48x48.png"; "favicons/favicon-64x64.png";
        "favicons/favicon-128x128.png"; "favicons/favicon-180x180.png";
        "favicons/favicon-192x192.png"; "favicons/favicon-512x512.png";
        "favicons/favicon.ico"; "favicons/apple-touch-icon.png"]
  /\ length output_paths = 10%nat.
Proof.
  intros Hp. split; [| split; [| split; reflexivity]].
  - destruct (main_cases w) as [(e & _ & Hm) | [(e & _ & _ & _ & Hm) | (im & _ & _ & Hm)]].
    + now rewrite Hm.
    + now rewrite Hm.
    + destruct Hm as [Hm | (e & w2 & written & failed & rest & Hm & Ha & _ & _ & _ & Hf)];
        rewrite Hm; cbn [snd].
      * rewrite completed_files. apply write_all_lookup_other.
        now rewrite artifact_paths.
      * assert (Hpaths : output_paths = map a_path written ++ a_path failed :: map a_path rest).
        { rewrite <- (artifact_paths (convert im "RGBA")), Ha, map_app. reflexivity. }
        rewrite Hpaths, in_app_iff in Hp.
        rewrite Hf by (intros ->; apply Hp; right; now left).
        apply write_all_lookup_other. tauto.
  - intros d Hev. apply main_saves in Hev as (im & a & _ & Hin & -> & _).
    apply Hp. rewrite <- (artifact_paths (convert im "RGBA")). now apply in_map.
Qed.


(** C10: the output directory is made, with exist_ok semantics, before
    the source is opened: when the directory can be made and icon.png is
    missing (or otherwise unusable), the run fails at the decode stage,
    favicons/ exists afterwards, and no file has been written.  With no
    icon.png the exception is FileNotFoundError. *)
Theorem output_dir_created_before_decoding (w : world) :
  can_make_output_dir w -> source_unusable w ->
  exists e,
    decode_stage e
    /\ (main w).1 = Raise e
    /\ history_since w (main w).2 = [EvMakedirs "favicons"; EvOpen "icon.png"]
    /\ "favicons" ∈ dirs (main w).2
    /\ dirs (main w).2 = {["favicons"]} ∪ dirs w
    /\ files (main w).2 = files w
    /\ (files w !! "icon.png" = None -> "icon.png" ∉ dirs w ->
        e = FileNotFoundError "icon.png").
Proof.
  intros Hcan Hbad.
  exists (source_error w). rewrite (main_source_error w Hcan Hbad). cbn [fst snd].
  split; [apply source_error_stage |]. split; [reflexivity |].
  split; [apply history_since_app; reflexivity |].
  split; [cbn [dirs loaded]; apply elem_of_union_l, elem_of_singleton; reflexivity |].
  split; [reflexivity |]. split; [reflexivity |].
  intros Hnone Hnodir. unfold source_error, SOURCE. rewrite Hnone.
  destruct (decide ("icon.png" ∈ dirs w)); [contradiction | reflexivity].
Qed.

(** C5: a second successful run over the result of a first successful
    run leaves every file, and the set of directories, exactly as the
    first run left them: the outputs are a function of the source image
    and the fixed sizes, and the source is not among the outputs. *)
Theorem rerun_is_idempotent (w w1 w2 : world) :
  main w = (Ok tt, w1) -> main w1 = (Ok tt, w2) ->
  files w2 = files w1 /\ dirs w2 = dirs w1.
Proof.
  intros E1 E2.
  apply main_ok_inv in E1 as (im & _ & Hsrc & ->).
  apply main_ok_inv in E2 as (im' & _ & Hsrc' & ->).
  assert (im' = im) as ->.
  { apply (source_decodes_inj (completed (convert im "RGBA") w)); [exact Hsrc' |].
    eapply source_decodes_files; [| exact Hsrc].
    rewrite completed_files. apply write_all_lookup_other.
    rewrite artifact_paths. exact source_not_output. }
  split.
  - rewrite !completed_files. apply write_all_idem.
    rewrite artifact_paths. exact output_paths_nodup.
  - cbn [dirs completed emitted loaded].
    rewrite (assoc_L (∪)), (idemp_L (∪)). reflexivity.
Qed.

(** C8: a refused save ends the run at once.  When the directory was made
    and the source decoded, the writes of the artifacts before some artifact
    are accepted and its own write is refused, then the run raises the
    error of that refusal and stops there: the earlier artifacts are in
    place, each announced on the console, the refused save was attempted
    once and is the last thing the run did (no retry, nothing rolled
    back), its path holds what the refusal left, and the path of every
    later artifact is as it was before the run. *)
Theorem refused_save_ends_run (w : world) (im : image)
        (written rest : list Artifact) (failed : Artifact)
        (leftover : option filedata) :
  can_make_output_dir w -> source_decodes w im ->
  artifacts (convert im "RGBA") = written ++ failed :: rest ->
  accepted written (loaded w) ->
  write_fault (log (save_event failed) (emitted written (loaded w))) (a_path failed)
  = Some leftover ->
  (main w).1
  = Raise (os_error (write_errno (log (save_event failed) (emitted written (loaded w)))
                                 (a_path failed))
                    (a_path failed))
  /\ (forall a, In a written -> files (main w).2 !! a_path a = Some (a_data a))
  /\ files (main w).2 !! a_path failed = leftover
  /\ (forall a, In a rest -> files (main w).2 !! a_path a = files w !! a_path a)
  /\ history_since w (main w).2
     = [EvMakedirs "favicons"; EvOpen "icon.png"]
       ++ events_of written ++ [save_event failed]
  /\ stdout (main w).2 = stdout w +:+ unlines (map a_line written).
Proof.
  intros Hcan Hsrc Harts Hacc Hrefused.
  assert (Hm : main w
               = (Raise (os_error
                           (write_errno (log (save_event failed) (emitted written (loaded w)))
                                        (a_path failed))
                           (a_path failed)),
                  refused_at failed leftover (emitted written (loaded w)))).
  { rewrite main_structure. unfold bind at 1. rewrite (load_ok w im Hcan Hsrc).
    unfold bind. rewrite Harts.
    rewrite (emit_all_refused written rest failed leftover (loaded w)); auto.
    intros a Ha. rewrite (output_dirnames (convert im "RGBA") a) by (now rewrite Harts).
    cbn [dirs loaded]. apply elem_of_union_l, elem_of_singleton. reflexivity. }
  rewrite Hm. cbn [fst snd].
  pose proof output_paths_nodup as Hnd.
  rewrite <- (artifact_paths (convert im "RGBA")), Harts, map_app in Hnd. cbn [map] in Hnd.
  apply NoDup_ListNoDup, NoDup_app in Hnd as (Hnd1 & Hdisj & Hnd2).
  apply NoDup_cons in Hnd2 as [Hfresh _].
  split; [reflexivity |].
  unfold refused_at. cbn [files stdout trace set_files log emitted loaded].
  split; [| split; [| split; [| split]]].
  - intros a Hin. rewrite lookup_partial_alter_ne.
    + apply write_all_lookup; [now apply NoDup_ListNoDup | exact Hin].
    + intros E. apply (Hdisj (a_path a)).
      * apply list_elem_of_In. now apply in_map.
      * rewrite <- E. now left.
  - apply lookup_partial_alter_eq.
  - intros a Hin. rewrite lookup_partial_alter_ne.
    + apply write_all_lookup_other. intros Hin'.
      apply (Hdisj (a_path a)); [now apply list_elem_of_In |].
      right. apply list_elem_of_In. now apply in_map.
    + intros E. apply Hfresh. rewrite E. apply list_elem_of_In. now apply in_map.
  - apply history_since_app. cbn [trace set_files log emitted loaded].
    now rewrite <- !app_assoc.
  - reflexivity.
Qed.

(** C9 (as amended): on a successful run the console receives, in order,
    the eight lines Created favicon-SxS.png in the fixed size order, the
    line Created favicon.ico, the line Created apple-touch-icon.png, an
    empty line, and the summary line naming the output directory; every
    progress line is printed right after the save of its file. *)
Theorem console_of_successful_run (w w' : world) :
  main w = (Ok tt, w') ->
  stdout w'
  = stdout w +:+ unlines
      ["Created favicon-16x16.png"; "Created favicon-32x32.png";
       "Created favicon-48x48.png"; "Created favicon-64x64.png";
       "Created favicon-128x128.png"; "Created favicon-180x180.png";
       "Created favicon-192x192.png"; "Created favicon-512x512.png";
       "Created favicon.ico"; "Created apple-touch-icon.png";
       ""; "All favicons saved to 'favicons/'"]
  /\ exists img,
       history_since w w'
       = [EvMakedirs "favicons"; EvOpen "icon.png"]
         ++ flat_map (fun a => [EvSave (a_path a) (a_data a); EvPrint (a_line a)])
                     (artifacts img)
         ++ [EvPrint (nl +:+ "All favicons saved to 'favicons/'")]
       /\ map a_line (artifacts img)
          = ["Created favicon-16x16.png"; "Created favicon-32x32.png";
             "Created favicon-48x48.png"; "Created favicon-64x64.png";
             "Created favicon-128x128.png"; "Created favicon-180x180.png";
             "Created favicon-192x192.png"; "Created favicon-512x512.png";
             "Created favicon.ico"; "Created apple-touch-icon.png"].
Proof.
  intros E. apply main_ok_inv in E as (im & _ & _ & ->).
  split.
  - cbn [stdout completed emitted loaded]. rewrite append_assoc. reflexivity.
  - exists (convert im "RGBA"). split; [| reflexivity].
    apply history_since_app. apply completed_trace.
Qed.

End Facts.

(** ** The script on the concrete platform *)

Example str_of_sizes : map str sizes = ["16"; "32"; "48"; "64"; "128"; "180"; "192"; "512"].
Proof. reflexivity. Qed.

Example path_join_output : path_join "favicons" "favicon.ico" = "favicons/favicon.ico".
Proof. reflexivity. Qed.

Example sorted_set_ico_sizes :
  sorted_set [(64,64); (16,16); (32,32); (16,16); (48,48)] = ico_sizes.
Proof. reflexivity. Qed.

Example lines_of_text : lines ("a" +:+ nl +:+ nl +:+ "b" +:+ nl) = ["a"; ""; "b"].
Proof. reflexivity. Qed.

Example demo_run_succeeds : (Demo.run Demo.fresh).1 = Ok tt.
Proof. vm_compute. reflexivity. Qed.

Example demo_missing_source :
  (Demo.run Demo.no_source).1 = Raise (FileNotFoundError "icon.png").
Proof. vm_compute. reflexivity. Qed.

Example demo_truncated_source :
  (Demo.run Demo.truncated).1 = Raise (OSError "icon.png").
Proof. vm_compute. reflexivity. Qed.

Example demo_unreadable_source :
  (@main Demo.imaging Demo.locked Demo.lived_in).1 = Raise (PermissionError "icon.png").
Proof. vm_compute. reflexivity. Qed.

Example demo_directory_refused :
  (@main Demo.imaging Demo.locked Demo.fresh).1 = Raise (PermissionError "favicons")
  /\ (@main Demo.imaging Demo.read_only Demo.fresh).1 = Raise (OSError "favicons")
  /\ (Demo.run Demo.blocked).1 = Raise (FileExistsError "favicons").
Proof. repeat split; vm_compute; reflexivity. Qed.

Example demo_write_refused :
  (@main Demo.imaging Demo.write_protected Demo.fresh).1
  = Raise (PermissionError "favicons/favicon-16x16.png").
Proof. vm_compute. reflexivity. Qed.

Example demo_rerun_after_refused_directory :
  (@main Demo.imaging Demo.locked Demo.fresh).1 = Raise (PermissionError "favicons")
  /\ files (Demo.run (@main Demo.imaging Demo.locked Demo.fresh).2).2
     = files (Demo.run Demo.fresh).2.
Proof. split; vm_compute; reflexivity. Qed.

Example demo_rerun_after_refused_read :
  (@main Demo.imaging Demo.locked Demo.lived_in).1 = Raise (PermissionError "icon.png")
  /\ files (Demo.run (@main Demo.imaging Demo.locked Demo.lived_in).2).2
     = files (Demo.run Demo.lived_in).2.
Proof. split; vm_compute; reflexivity. Qed.

Example demo_flaky_run_fails :
  (Demo.run_flaky Demo.fresh).1 = Raise (OSError "favicons/favicon-48x48.png").
Proof. vm_compute. reflexivity. Qed.

Lemma square_pngs_generated_witness :
  @no_write_faults Demo.imaging Demo.healthy
  /\ @can_make_output_dir Demo.imaging Demo.healthy Demo.fresh
  /\ @source_decodes Demo.imaging Demo.healthy Demo.fresh Demo.source
  /\ (Demo.run Demo.fresh).1 = Ok tt
  /\ files (Demo.run Demo.fresh).2 !! "favicons/favicon-512x512.png"
     = Some (PngFile (mkImage "RGBA" (512, 512) 519)).
Proof.
  assert (H1 : @no_write_faults Demo.imaging Demo.healthy) by (intros w p; reflexivity).
  assert (H2 : @can_make_output_dir Demo.imaging Demo.healthy Demo.fresh)
    by (right; split; reflexivity).
  assert (H3 : @source_decodes Demo.imaging Demo.healthy Demo.fresh Demo.source)
    by (exists (Raw [Byte.x89]); repeat split; reflexivity).
  destruct (@square_pngs_generated Demo.imaging Demo.healthy Demo.fresh Demo.source H1 H2 H3)
    as (_ & Hok & _ & _ & Hfiles).
  split; [exact H1 |]. split; [exact H2 |]. split; [exact H3 |].
  split; [exact Hok |].
  exact (proj1 (Hfiles 512 ltac:(simpl; tauto))).
Defined.

Lemma touch_icon_generated_witness :
  @no_write_faults Demo.imaging Demo.healthy
  /\ @can_make_output_dir Demo.imaging Demo.healthy Demo.fresh
  /\ @source_decodes Demo.imaging Demo.healthy Demo.fresh Demo.source
  /\ files (Demo.run Demo.fresh).2 !! "favicons/apple-touch-icon.png"
     = Some (PngFile (mkImage "RGBA" (180, 180) 187)).
Proof.
  assert (H1 : @no_write_faults Demo.imaging Demo.healthy) by (intros w p; reflexivity).
  assert (H2 : @can_make_output_dir Demo.imaging Demo.healthy Demo.fresh)
    by (right; split; reflexivity).
  assert (H3 : @source_decodes Demo.imaging Demo.healthy Demo.fresh Demo.source)
    by (exists (Raw [Byte.x89]); repeat split; reflexivity).
  destruct (@touch_icon_generated Demo.imaging Demo.healthy Demo.fresh Demo.source H1 H2 H3)
    as (_ & _ & Hfile & _).
  split; [exact H1 |]. split; [exact H2 |]. split; [exact H3 |]. exact Hfile.
Defined.

Lemma outputs_are_square_witness :
  In (EvSave "favicons/favicon.ico" (IcoFile [mkImage "RGBA" (16, 16) 23]))
     (@history_since Demo.imaging Demo.fresh (Demo.run Demo.fresh).2)
  /\ In (mkImage "RGBA" (16, 16) 23)
        (@rasters Demo.imaging (IcoFile [mkImage "RGBA" (16, 16) 23]))
  /\ @is_square Demo.imaging (mkImage "RGBA" (16, 16) 23).
Proof.
  assert (H1 : In (EvSave "favicons/favicon.ico" (IcoFile [mkImage "RGBA" (16, 16) 23]))
                  (@history_since Demo.imaging Demo.fresh (Demo.run Demo.fresh).2)).
  { vm_compute. do 18 right. left. reflexivity. }
  assert (H2 : In (mkImage "RGBA" (16, 16) 23)
                  (@rasters Demo.imaging (IcoFile [mkImage "RGBA" (16, 16) 23])))
    by (left; reflexivity).
  split; [exact H1 |]. split; [exact H2 |].
  exact (proj1 (@outputs_are_square Demo.imaging Demo.healthy Demo.fresh _ _ _ H1 H2)).
Defined.

(** C2: the container the run writes holds a single frame, the 16x16
    one.  The icon writer drops every requested size that exceeds the
    image being saved, and the script saves from the smallest raster, so
    the 32, 48 and 64 rasters handed over as [append_images] never reach
    the file. *)
Theorem favicon_ico_holds_one_frame :
  files (Demo.run Demo.fresh).2 !! "favicons/favicon.ico"
  = Some (IcoFile [mkImage "RGBA" (16, 16) 23])
  /\ forall (lib : Imaging) (img : Image Pixels),
       ico_frames (resize img (16, 16) LANCZOS) ico_sizes
         (map (fun s => resize img s LANCZOS) (tail ico_sizes))
       = [resize img (16, 16) LANCZOS].
Proof. split; [vm_compute; reflexivity | intros lib img; reflexivity]. Qed.

(** C3, as worded, fails: on a fresh directory the run changes ten
    paths, so no list of nine paths covers what it writes. *)
Lemma nine_paths_do_not_cover_the_writes :
  ~ exists nine : list string,
      length nine = 9%nat
      /\ forall p, files (Demo.run Demo.fresh).2 !! p <> files Demo.fresh !! p -> In p nine.
Proof.
  intros (nine & Hlen & Hcov).
  assert (Hincl : incl output_paths nine).
  { intros p Hp. apply Hcov. unfold output_paths, sizes in Hp. cbn [map app] in Hp.
    repeat (destruct Hp as [<- | Hp]; [vm_compute; discriminate |]).
    destruct Hp. }
  pose proof (List.NoDup_incl_length output_paths_nodup Hincl) as Hle.
  rewrite Hlen in Hle. vm_compute in Hle. lia.
Qed.

Lemma only_outputs_written_witness :
  ~ In "favicons/notes.txt" output_paths
  /\ files (Demo.run Demo.lived_in).2 !! "favicons/notes.txt" = Some (Raw [Byte.x41]).
Proof.
  assert (H1 : ~ In "favicons/notes.txt" output_paths).
  { rewrite <- list_elem_of_In. apply (bool_decide_unpack _). vm_compute. exact I. }
  split; [exact H1 |].
  unfold Demo.run.
  rewrite (proj1 (@only_outputs_written Demo.imaging Demo.healthy Demo.lived_in _ H1)).
  reflexivity.
Defined.


Lemma output_dir_created_before_decoding_witness :
  @can_make_output_dir Demo.imaging Demo.healthy Demo.no_source
  /\ @source_unusable Demo.imaging Demo.healthy Demo.no_source
  /\ "favicons" ∈ dirs (Demo.run Demo.no_source).2
  /\ files (Demo.run Demo.no_source).2 = files Demo.no_source.
Proof.
  assert (H1 : @can_make_output_dir Demo.imaging Demo.healthy Demo.no_source)
    by (right; split; reflexivity).
  assert (H2 : @source_unusable Demo.imaging Demo.healthy Demo.no_source)
    by (left; reflexivity).
  split; [exact H1 |]. split; [exact H2 |].
  destruct (@output_dir_created_before_decoding Demo.imaging Demo.healthy Demo.no_source H1 H2)
    as (e & _ & _ & _ & Hdir & _ & Hf & _).
  split; [exact Hdir | exact Hf].
Defined.

Lemma rerun_is_idempotent_witness :
  Demo.run Demo.fresh = (Ok tt, (Demo.run Demo.fresh).2)
  /\ Demo.run (Demo.run Demo.fresh).2 = (Ok tt, (Demo.run (Demo.run Demo.fresh).2).2)
  /\ files (Demo.run (Demo.run Demo.fresh).2).2 = files (Demo.run Demo.fresh).2
  /\ dirs (Demo.run (Demo.run Demo.fresh).2).2 = dirs (Demo.run Demo.fresh).2.
Proof.
  assert (H1 : Demo.run Demo.fresh = (Ok tt, (Demo.run Demo.fresh).2))
    by (vm_compute; reflexivity).
  assert (H2 : Demo.run (Demo.run Demo.fresh).2
               = (Ok tt, (Demo.run (Demo.run Demo.fresh).2).2))
    by (vm_compute; reflexivity).
  split; [exact H1 |]. split; [exact H2 |].
  exact (@rerun_is_idempotent Demo.imaging Demo.healthy _ _ _ H1 H2).
Defined.

Lemma refused_save_ends_run_witness :
  @can_make_output_dir Demo.imaging Demo.flaky Demo.fresh
  /\ @source_decodes Demo.imaging Demo.flaky Demo.fresh Demo.source
  /\ @accepted Demo.imaging Demo.flaky
       [@square_png Demo.imaging (@convert Demo.imaging Demo.source "RGBA") 16;
        @square_png Demo.imaging (@convert Demo.imaging Demo.source "RGBA") 32]
       (@loaded Demo.imaging Demo.fresh)
  /\ (Demo.run_flaky Demo.fresh).1 = Raise (OSError "favicons/favicon-48x48.png")
  /\ files (Demo.run_flaky Demo.fresh).2 !! "favicons/favicon-32x32.png"
     = Some (PngFile (mkImage "RGBA" (32, 32) 39))
  /\ files (Demo.run_flaky Demo.fresh).2 !! "favicons/favicon-48x48.png" = Some (Raw [])
  /\ files (Demo.run_flaky Demo.fresh).2 !! "favicons/favicon.ico" = None
  /\ stdout (Demo.run_flaky Demo.fresh).2
     = unlines ["Created favicon-16x16.png"; "Created favicon-32x32.png"].
Proof.
  pose (img := @convert Demo.imaging Demo.source "RGBA").
  pose (written := [@square_png Demo.imaging img 16; @square_png Demo.imaging img 32]).
  pose (failed := @square_png Demo.imaging img 48).
  pose (rest := map (@square_png Demo.imaging img) [64; 128; 180; 192; 512]
                ++ [@icon_container Demo.imaging img; @touch_icon Demo.imaging img]).
  assert (H1 : @can_make_output_dir Demo.imaging Demo.flaky Demo.fresh)
    by (right; split; reflexivity).
  assert (H2 : @source_decodes Demo.imaging Demo.flaky Demo.fresh Demo.source)
    by (exists (Raw [Byte.x89]); repeat split; reflexivity).
  assert (H3 : @artifacts Demo.imaging img = written ++ failed :: rest)
    by reflexivity.
  assert (H4 : @accepted Demo.imaging Demo.flaky written (@loaded Demo.imaging Demo.fresh))
    by (repeat split; reflexivity).
  assert (H5 : @write_fault Demo.imaging Demo.flaky
                 (@log Demo.imaging (@save_event Demo.imaging failed)
                    (@emitted Demo.imaging written (@loaded Demo.imaging Demo.fresh)))
                 (a_path failed)
               = Some (Some (Raw [])))
    by reflexivity.
  destruct (@refused_save_ends_run Demo.imaging Demo.flaky Demo.fresh Demo.source
              written rest failed (Some (Raw [])) H1 H2 H3 H4 H5)
    as (He & Hwritten & Hfailed & Hrest & _ & Hout).
  split; [exact H1 |]. split; [exact H2 |]. split; [exact H4 |].
  split; [exact He |].
  split; [exact (Hwritten (@square_png Demo.imaging img 32) ltac:(simpl; tauto)) |].
  split; [exact Hfailed |].
  split; [exact (Hrest (@icon_container Demo.imaging img) ltac:(simpl; tauto)) |].
  exact Hout.
Defined.

(** C9, as worded, fails: the console of a successful run has twelve
    lines, not eleven -- an empty line precedes the summary -- so it is
    not the claimed sequence whatever the touch-icon and summary lines
    are taken to be. *)
Lemma console_is_not_the_claimed_lines :
  ~ exists touch_line summary_line,
      lines (stdout (Demo.run Demo.fresh).2) = claimed_console touch_line summary_line.
Proof.
  intros (touch_line & summary_line & E).
  apply (f_equal (@length string)) in E. vm_compute in E. discriminate.
Qed.

Lemma console_of_successful_run_witness :
  Demo.run Demo.fresh = (Ok tt, (Demo.run Demo.fresh).2)
  /\ lines (stdout (Demo.run Demo.fresh).2)
     = ["Created favicon-16x16.png"; "Created favicon-32x32.png";
        "Created favicon-48x48.png"; "Created favicon-64x64.png";
        "Created favicon-128x128.png"; "Created favicon-180x180.png";
        "Created favicon-192x192.png"; "Created favicon-512x512.png";
        "Created favicon.ico"; "Created apple-touch-icon.png";
        ""; "All favicons saved to 'favicons/'"].
Proof.
  assert (H1 : Demo.run Demo.fresh = (Ok tt, (Demo.run Demo.fresh).2))
    by (vm_compute; reflexivity).
  split; [exact H1 |].
  rewrite (proj1 (@console_of_successful_run Demo.imaging Demo.healthy _ _ H1)).
  reflexivity.
Defined.

(** ** File names *)

Lemma numeric_uint (d : Decimal.uint) : numeric (NilEmpty.string_of_uint d) = true.
Proof. induction d; cbn; auto. Qed.

Lemma numeric_str (z : Z) : numeric (str z) = true.
Proof.
  unfold str, NilZero.string_of_int, NilZero.string_of_uint.
  destruct (Z.to_int z) as [d|d]; destruct d; cbn; rewrite ?numeric_uint; reflexivity.
Qed.

Lemma str_parse (z : Z) : NilZero.int_of_string (str z) = Some (Z.to_int z).
Proof.
  unfold str. apply NilZero.isi; intros E; pose proof (f_equal Z.of_int E) as E';
    rewrite DecimalZ.of_to in E'; cbn in E'; subst z; discriminate E.
Qed.

Lemma str_inj (a b : Z) : str a = str b -> a = b.
Proof.
  intros E. pose proof (str_parse a) as Ha. rewrite E, str_parse in Ha.
  injection Ha as Ha. apply (f_equal Z.of_int) in Ha.
  now rewrite !DecimalZ.of_to in Ha.
Qed.

Lemma numeric_no_slash (s : string) : numeric s = true -> has_slash s = false.
Proof.
  induction s as [|c s IH]; [reflexivity |]. cbn.
  intros [Hc Hs]%andb_true_iff. rewrite (IH Hs), orb_false_r.
  destruct (Ascii.eqb_spec c "/") as [-> | _]; [discriminate Hc | reflexivity].
Qed.

Lemma has_slash_app (a b : string) : has_slash (a +:+ b) = has_slash a || has_slash b.
Proof.
  induction a as [|c a IH]; [reflexivity |].
  rewrite append_cons. cbn. now rewrite IH, orb_assoc.
Qed.

Lemma split_at_separator (c : ascii) (s1 s2 t1 t2 : string) :
  numeric_char c = false -> numeric s1 = true -> numeric s2 = true ->
  s1 +:+ String c t1 = s2 +:+ String c t2 -> s1 = s2 /\ t1 = t2.
Proof.
  intros Hc. revert s2. induction s1 as [|a s1 IH]; intros [|b s2] H1 H2 E.
  - injection E as <-. auto.
  - rewrite append_cons in E. injection E as <- _.
    cbn in H2. rewrite Hc in H2. discriminate.
  - rewrite append_cons in E. injection E as -> _.
    cbn in H1. rewrite Hc in H1. discriminate.
  - rewrite !append_cons in E. injection E as <- E.
    cbn in H1, H2. apply andb_true_iff in H1 as [_ H1]. apply andb_true_iff in H2 as [_ H2].
    destruct (IH s2 H1 H2 E) as [<- <-]. auto.
Qed.

Lemma ends_with_app (suf a : string) : ends_with suf (a +:+ suf) = true.
Proof.
  induction a as [|c a IH].
  - change ("" +:+ suf) with suf. destruct suf; [reflexivity |].
    cbn [ends_with]. now rewrite String.eqb_refl.
  - rewrite append_cons. cbn [ends_with]. now rewrite IH, orb_true_r.
Qed.

Lemma dirname_join (d n : string) :
  has_slash n = false -> dirname (d +:+ "/" +:+ n) = d.
Proof.
  intros Hn. induction d as [|c d IH].
  - change (dirname (String "/" n) = ""). cbn. now rewrite Hn.
  - rewrite append_cons. cbn. rewrite has_slash_app, IH.
    change (has_slash ("/" +:+ n)) with true. now rewrite orb_true_r.
Qed.

Lemma png_name_no_slash (size : Z) : has_slash (png_name size) = false.
Proof.
  unfold png_name.
  rewrite !has_slash_app, !(numeric_no_slash (str size)) by apply numeric_str.
  reflexivity.
Qed.

(** X11: the file name of a square PNG determines its size: two different
    sizes are never saved under the same path. *)
Theorem square_png_paths_differ (a b : Z) :
  a <> b -> path_join OUTPUT_DIR (png_name a) <> path_join OUTPUT_DIR (png_name b).
Proof.
  intros Hab E. apply Hab.
  change (path_join OUTPUT_DIR (png_name a)) with ("favicons/favicon-" +:+ str a +:+ String "x" (str a +:+ ".png")) in E.
  change (path_join OUTPUT_DIR (png_name b)) with ("favicons/favicon-" +:+ str b +:+ String "x" (str b +:+ ".png")) in E.
  apply String.app_inj in E.
  apply split_at_separator in E as [E _]; auto using numeric_str.
  now apply str_inj.
Qed.

(** X12: whatever the size, the path built for its square PNG lies
    directly in the output directory and carries the extension from which
    the PNG format is chosen. *)
Theorem square_png_path_well_formed (size : Z) :
  dirname (path_join OUTPUT_DIR (png_name size)) = OUTPUT_DIR
  /\ format_of_ext (path_join OUTPUT_DIR (png_name size)) = Some PNG.
Proof.
  split.
  - change (path_join OUTPUT_DIR (png_name size)) with (OUTPUT_DIR +:+ "/" +:+ png_name size).
    apply dirname_join, png_name_no_slash.
  - change (path_join OUTPUT_DIR (png_name size))
      with ("favicons/favicon-" +:+ str size +:+ "x" +:+ str size +:+ ".png").
    rewrite <- !append_assoc. unfold format_of_ext. now rewrite ends_with_app.
Qed.

Lemma square_png_paths_differ_witness :
  16 <> 32 /\ path_join OUTPUT_DIR (png_name 16) <> path_join OUTPUT_DIR (png_name 32).
Proof.
  assert (H : 16 <> 32) by lia.
  split; [exact H | exact (square_png_paths_differ 16 32 H)].
Defined.

(** ** More on how runs end *)

Section Behaviour.
Context `{Sys : System}.
Local Abbreviation image := (Image Pixels).
Local Abbreviation filedata := (FileData Pixels).
Local Abbreviation world := (World Pixels).

Lemma makedirs_raises (w w1 : world) (e : Exn) :
  makedirs OUTPUT_DIR true w = (Raise e, w1) -> e = directory_error w.
Proof.
  unfold makedirs, directory_error. cbv zeta. cbn [dirs files log].
  destruct (decide (OUTPUT_DIR ∈ dirs w)) as [Hin|Hnin]; [discriminate |].
  destruct (decide (is_Some (files w !! OUTPUT_DIR))) as [[d Hd]|Hn].
  - rewrite Hd. now intros [= <- _].
  - destruct (files w !! OUTPUT_DIR) as [d|]; [exfalso; apply Hn; eauto |].
    destruct (mkdir_denied OUTPUT_DIR); [now intros [= <- _] | discriminate].
Qed.

Lemma main_no_dir (w : world) :
  ~ can_make_output_dir w ->
  main w = (Raise (directory_error w), log (EvMakedirs OUTPUT_DIR) w).
Proof.
  intros Hno. rewrite main_structure. unfold bind at 1. unfold load, bind at 1.
  destruct (makedirs OUTPUT_DIR true w) as [[[]|e] w1] eqn:E.
  - apply makedirs_inv in E. contradiction.
  - rewrite (makedirs_raises w w1 e E). apply makedirs_fail in E as [-> _]. reflexivity.
Qed.

Lemma main_frame (w : world) (q : string) :
  ~ In q output_paths -> files (main w).2 !! q = files w !! q.
Proof.
  intros Hq.
  destruct (main_cases w) as [(e & _ & Hm) | [(e & _ & _ & _ & Hm) | (im & _ & _ & Hm)]].
  - now rewrite Hm.
  - now rewrite Hm.
  - destruct Hm as [Hm | (e & w2 & written & failed & rest & Hm & Ha & _ & _ & _ & Hf)];
      rewrite Hm; cbn [snd].
    + rewrite completed_files. apply write_all_lookup_other. now rewrite artifact_paths.
    + assert (Hin : forall a, In a (written ++ failed :: rest) -> a_path a <> q).
      { intros a Ha' <-. apply Hq. rewrite <- (artifact_paths (convert im "RGBA")), Ha.
        now apply in_map. }
      rewrite Hf by (intros ->; apply (Hin failed); [apply in_elt | reflexivity]).
      apply write_all_lookup_other. intros (a & E & Ha')%in_map_iff.
      apply (Hin a); [apply in_or_app; now left | exact E].
Qed.

Lemma artifact_lines (img : image) :
  map a_line (artifacts img)
  = ["Created favicon-16x16.png"; "Created favicon-32x32.png";
     "Created favicon-48x48.png"; "Created favicon-64x64.png";
     "Created favicon-128x128.png"; "Created favicon-180x180.png";
     "Created favicon-192x192.png"; "Created favicon-512x512.png";
     "Created favicon.ico"; "Created apple-touch-icon.png"].
Proof. reflexivity. Qed.

Lemma artifact_lines_nodup (img : image) : List.NoDup (map a_line (artifacts img)).
Proof.
  rewrite artifact_lines. apply NoDup_ListNoDup. apply (bool_decide_unpack _).
  vm_compute. exact I.
Qed.


Lemma nodup_map_inj {A B} (f : A -> B) (l : list A) (a b : A) :
  List.NoDup (map f l) -> In a l -> In b l -> f a = f b -> a = b.
Proof.
  induction l as [|x l IH]; intros Hnd Ha Hb E; [destruct Ha |].
  cbn [map] in Hnd. apply List.NoDup_cons_iff in Hnd as [Hx Hnd].
  destruct Ha as [-> | Ha], Hb as [-> | Hb]; auto.
  - exfalso. apply Hx. rewrite E. now apply in_map.
  - exfalso. apply Hx. rewrite <- E. now apply in_map.
Qed.

Lemma events_of_prints (arts : list Artifact) (s : string) :
  In (EvPrint s) (events_of arts) -> exists a, In a arts /\ s = a_line a.
Proof.
  unfold events_of. rewrite in_flat_map. intros (a & Ha & [E | [E | []]]); [discriminate |].
  injection E as <-. eauto.
Qed.

Lemma events_of_output (arts : list Artifact) :
  forallb is_output_event (events_of arts) = true.
Proof. induction arts as [|a arts IH]; [reflexivity | exact IH]. Qed.

(** The artifacts written before a refused save are in place. *)
Lemma written_in_place (img : image) (written rest : list Artifact) (failed : Artifact)
      (f f' : gmap string filedata) :
  artifacts img = written ++ failed :: rest ->
  (forall q, q <> a_path failed -> f' !! q = write_all written f !! q) ->
  forall a, In a written -> f' !! a_path a = Some (a_data a).
Proof.
  intros Ha Hf a Hin.
  pose proof output_paths_nodup as Hnd.
  rewrite <- (artifact_paths img), Ha, map_app in Hnd. cbn [map] in Hnd.
  apply NoDup_ListNoDup, NoDup_app in Hnd as (Hnd1 & Hdisj & _).
  rewrite Hf.
  - apply write_all_lookup; [now apply NoDup_ListNoDup | exact Hin].
  - intros E. apply (Hdisj (a_path a)).
    + apply list_elem_of_In. now apply in_map.
    + rewrite E. now left.
Qed.

(** X1: when the output directory cannot be made -- a regular file is in
    the way, or the system refuses -- the run ends at that first step with
    the directory error, FileExistsError for the file in the way and
    otherwise the error of the refusal (PermissionError when permission is
    lacking, a plain OSError for a full or read-only disk): the source is
    never opened, nothing is saved or printed, and files and directories
    are as before. *)
Theorem directory_failure_stops_the_run (w : world) :
  ~ can_make_output_dir w ->
  (main w).1 = Raise (match files w !! "favicons" with
                      | Some _ => FileExistsError "favicons"
                      | None => os_error (mkdir_errno "favicons") "favicons"
                      end)
  /\ history_since w (main w).2 = [EvMakedirs "favicons"]
  /\ files (main w).2 = files w
  /\ dirs (main w).2 = dirs w
  /\ stdout (main w).2 = stdout w.
Proof.
  intros Hno. rewrite (main_no_dir w Hno). cbn [fst snd].
  split; [reflexivity |]. split; [| repeat split].
  apply history_since_app. reflexivity.
Qed.

(** X2: the directories after a run are those before it, plus favicons
    exactly when it could be made; this holds however the run ends. *)
Theorem directories_after_run (w : world) (d : string) :
  d ∈ dirs (main w).2 <-> d ∈ dirs w \/ (d = "favicons" /\ can_make_output_dir w).
Proof.
  destruct (main_cases w) as [(e & Hno & Hm) | [(e & Hcan & _ & _ & Hm) | (im & Hcan & _ & Hm)]].
  - rewrite Hm. cbn [snd dirs log]. tauto.
  - rewrite Hm. cbn [snd dirs loaded]. rewrite elem_of_union, elem_of_singleton.
    unfold OUTPUT_DIR. tauto.
  - assert (Hd : dirs (main w).2 = dirs (loaded w)).
    { destruct Hm as [Hm | (e & w2 & written & failed & rest & Hm & _ & Hd & _)];
        rewrite Hm; [reflexivity | exact Hd]. }
    rewrite Hd. cbn [dirs loaded]. rewrite elem_of_union, elem_of_singleton.
    unfold OUTPUT_DIR. tauto.
Qed.

(** X3: every run starts by making the output directory; if it goes on,
    the next step opens icon.png, once; whatever follows is a save or a
    print.  No other file is opened and no other directory is made. *)
Theorem history_shape (w : world) :
  history_since w (main w).2 = [EvMakedirs "favicons"]
  \/ exists outs,
       history_since w (main w).2 = EvMakedirs "favicons" :: EvOpen "icon.png" :: outs
       /\ forallb is_output_event outs = true.
Proof.
  destruct (main_cases w) as [(e & _ & Hm) | [(e & _ & _ & _ & Hm) | (im & _ & _ & Hm)]].
  - left. rewrite Hm. apply history_since_app. reflexivity.
  - right. exists []. rewrite Hm. split; [| reflexivity].
    apply history_since_app. reflexivity.
  - right.
    destruct Hm as [Hm | (e & w2 & written & failed & rest & Hm & _ & _ & _ & Ht & _)];
      rewrite Hm; cbn [snd].
    + exists (events_of (artifacts (convert im "RGBA")) ++ [EvPrint summary]). split.
      * apply history_since_app. apply completed_trace.
      * now rewrite forallb_app, events_of_output.
    + exists (events_of written ++ [save_event failed]). split.
      * apply history_since_app. rewrite Ht. cbn [trace loaded]. now rewrite <- app_assoc.
      * now rewrite forallb_app, events_of_output.
Qed.

(** X4: after a successful run the touch icon and favicon-180x180.png
    hold one and the same 180x180 raster. *)
Theorem touch_icon_is_the_180_png (w w' : world) :
  main w = (Ok tt, w') ->
  exists x,
    files w' !! "favicons/apple-touch-icon.png" = Some (PngFile x)
    /\ files w' !! "favicons/favicon-180x180.png" = Some (PngFile x)
    /\ im_size x = (180, 180).
Proof.
  intros E. apply main_ok_inv in E as (im & _ & _ & ->).
  set (img := convert im "RGBA").
  exists (resize img (180, 180) LANCZOS). split; [| split; [| reflexivity]].
  - apply (completed_lookup img w (touch_icon img)).
    unfold artifacts. rewrite in_app_iff. right. right. now left.
  - apply (completed_lookup img w (square_png img 180)).
    unfold artifacts. rewrite in_app_iff. left. apply in_map.
    unfold sizes. cbn. tauto.
Qed.

(** X5: whatever the mode of the source, every raster the run saves is in
    RGBA mode. *)
Theorem saved_rasters_are_rgba (w : world) (p : string) (d : filedata) (x : image) :
  In (EvSave p d) (history_since w (main w).2) -> In x (rasters d) ->
  im_mode x = "RGBA".
Proof.
  intros Hev Hx.
  apply main_saves in Hev as (im & a & _ & Hin & -> & ->).
  apply artifact_cases in Hin as [(S & HS & ->) | [-> | ->]].
  - destruct Hx as [<- | []]. reflexivity.
  - rewrite icon_container_frames in Hx. destruct Hx as [<- | []]. reflexivity.
  - destruct Hx as [<- | []]. reflexivity.
Qed.

(** X6: a progress line on the console is truthful, also in a run that
    stops early: if the line of an artifact was printed, its file holds
    the artifact at the end of the run. *)
Theorem progress_lines_are_truthful (w : world) (im : image) (a : Artifact) :
  source_decodes w im -> In a (artifacts (convert im "RGBA")) ->
  In (EvPrint (a_line a)) (history_since w (main w).2) ->
  files (main w).2 !! a_path a = Some (a_data a).
Proof.
  intros Hsrc Ha Hev.
  destruct (main_cases w) as [(e & _ & Hm) | [(e & _ & Hbad & _) | (im0 & _ & Hsrc0 & Hm)]].
  - rewrite Hm in Hev. cbn [snd] in Hev.
    rewrite (history_since_app w _ [EvMakedirs OUTPUT_DIR]) in Hev by reflexivity.
    destruct Hev as [E | []]. discriminate.
  - destruct (source_exclusive w im Hsrc Hbad).
  - rewrite (source_decodes_inj w im0 im Hsrc0 Hsrc) in Hm.
    destruct Hm as [Hm | (e & w2 & written & failed & rest & Hm & Harts & _ & _ & Ht & Hf)];
      rewrite Hm in *; cbn [snd] in *.
    + now apply completed_lookup.
    + cbn [loaded trace] in Ht. rewrite <- app_assoc in Ht.
      rewrite (history_since_app w _ _ Ht) in Hev.
      cbn [app] in Hev. destruct Hev as [E | [E | Hev]]; try discriminate.
      apply in_app_iff in Hev as [Hev | [E | []]]; [| discriminate].
      apply events_of_prints in Hev as (b & Hb & E).
      assert (a = b) as <-.
      { apply (nodup_map_inj a_line (artifacts (convert im "RGBA")));
          [apply artifact_lines_nodup | exact Ha | | exact E].
        rewrite Harts. apply in_or_app. now left. }
      eapply written_in_place; eauto.
Qed.


End Behaviour.

(** X10: a rerun repairs a failed run.  Whatever stopped a first run
    short of its end -- the system refusing to make the directory, to read
    the source, or to write an output, the last leaving a fragment behind
    -- a later successful run, on a system that has stopped refusing,
    leaves exactly the files that a clean successful run from the original
    directory would have left. *)
Theorem rerun_repairs `{lib : Imaging} (sys1 sys2 : System)
        (w w1 w2 : World Pixels) (r : Result unit) :
  @main lib sys1 w = (r, w1) -> @main lib sys2 w1 = (Ok tt, w2) ->
  exists im,
    @source_decodes lib sys2 w im
    /\ files w2 = files (completed (convert im "RGBA") w).
Proof.
  intros E1 E2.
  apply (@main_ok_inv lib sys2) in E2 as (im & _ & Hsrc & ->).
  assert (Hfr : forall q, ~ In q output_paths -> files w1 !! q = files w !! q).
  { intros q Hq. pose proof (@main_frame lib sys1 w q Hq) as Hf. now rewrite E1 in Hf. }
  exists im. split.
  - eapply (@source_decodes_files lib sys2); [| exact Hsrc].
    symmetry. apply Hfr, source_not_output.
  - rewrite !completed_files. apply map_eq. intros q.
    destruct (in_dec string_dec q output_paths) as [Hin | Hnin].
    + rewrite <- (artifact_paths (convert im "RGBA")) in Hin.
      apply in_map_iff in Hin as (a & <- & Hin).
      rewrite !write_all_lookup; auto;
        rewrite artifact_paths; apply output_paths_nodup.
    + rewrite !write_all_lookup_other by now rewrite artifact_paths.
      now apply Hfr.
Qed.

(** X9: the outputs are a function of the source alone: two successful
    runs, in different directories and on systems that behave differently,
    write the same ten files whenever icon.png holds the same content. *)
Theorem outputs_depend_on_source_only `{lib : Imaging} (sys1 sys2 : System)
        (w v w' v' : World Pixels) :
  @main lib sys1 w = (Ok tt, w') -> @main lib sys2 v = (Ok tt, v') ->
  files w !! SOURCE = files v !! SOURCE ->
  forall p, In p output_paths -> files w' !! p = files v' !! p.
Proof.
  intros E1 E2 Hsame p Hp.
  apply (@main_ok_inv lib sys1) in E1 as (im1 & _ & (d1 & Hd1 & _ & Hdec1) & ->).
  apply (@main_ok_inv lib sys2) in E2 as (im2 & _ & (d2 & Hd2 & _ & Hdec2) & ->).
  assert (im1 = im2) as <- by congruence.
  rewrite <- (artifact_paths (convert im1 "RGBA")) in Hp.
  apply in_map_iff in Hp as (a & <- & Ha).
  now rewrite !completed_lookup.
Qed.

(** ** These facts on the concrete platform *)

Lemma directory_failure_stops_the_run_witness :
  ~ @can_make_output_dir Demo.imaging Demo.healthy Demo.blocked
  /\ (Demo.run Demo.blocked).1 = Raise (FileExistsError "favicons")
  /\ files (Demo.run Demo.blocked).2 = files Demo.blocked.
Proof.
  assert (H1 : ~ @can_make_output_dir Demo.imaging Demo.healthy Demo.blocked).
  { intros [Hin | [Hnone _]].
    - vm_compute in Hin. discriminate Hin.
    - vm_compute in Hnone. discriminate Hnone. }
  destruct (@directory_failure_stops_the_run Demo.imaging Demo.healthy Demo.blocked H1)
    as (He & _ & Hf & _).
  split; [exact H1 |]. split; [exact He | exact Hf].
Defined.

Lemma touch_icon_is_the_180_png_witness :
  Demo.run Demo.fresh = (Ok tt, (Demo.run Demo.fresh).2)
  /\ exists x,
       files (Demo.run Demo.fresh).2 !! "favicons/apple-touch-icon.png" = Some (PngFile x)
       /\ files (Demo.run Demo.fresh).2 !! "favicons/favicon-180x180.png" = Some (PngFile x)
       /\ im_size x = (180, 180).
Proof.
  assert (H1 : Demo.run Demo.fresh = (Ok tt, (Demo.run Demo.fresh).2))
    by (vm_compute; reflexivity).
  split; [exact H1 |].
  exact (@touch_icon_is_the_180_png Demo.imaging Demo.healthy _ _ H1).
Defined.

Lemma saved_rasters_are_rgba_witness :
  In (EvSave "favicons/favicon-16x16.png" (PngFile (mkImage "RGBA" (16, 16) 23)))
     (@history_since Demo.imaging Demo.fresh (Demo.run Demo.fresh).2)
  /\ In (mkImage "RGBA" (16, 16) 23)
        (@rasters Demo.imaging (PngFile (mkImage "RGBA" (16, 16) 23)))
  /\ im_mode (Demo.source) = "RGB"
  /\ im_mode (mkImage (Px := Z) "RGBA" (16, 16) 23) = "RGBA".
Proof.
  assert (H1 : In (EvSave "favicons/favicon-16x16.png" (PngFile (mkImage "RGBA" (16, 16) 23)))
                  (@history_since Demo.imaging Demo.fresh (Demo.run Demo.fresh).2)).
  { vm_compute. do 2 right. left. reflexivity. }
  assert (H2 : In (mkImage "RGBA" (16, 16) 23)
                  (@rasters Demo.imaging (PngFile (mkImage "RGBA" (16, 16) 23))))
    by (left; reflexivity).
  split; [exact H1 |]. split; [exact H2 |]. split; [reflexivity |].
  exact (@saved_rasters_are_rgba Demo.imaging Demo.healthy Demo.fresh _ _ _ H1 H2).
Defined.

Lemma progress_lines_are_truthful_witness :
  @source_decodes Demo.imaging Demo.flaky Demo.fresh Demo.source
  /\ In (@square_png Demo.imaging (@convert Demo.imaging Demo.source "RGBA") 16)
        (@artifacts Demo.imaging (@convert Demo.imaging Demo.source "RGBA"))
  /\ In (EvPrint "Created favicon-16x16.png")
        (@history_since Demo.imaging Demo.fresh (Demo.run_flaky Demo.fresh).2)
  /\ (Demo.run_flaky Demo.fresh).1 = Raise (OSError "favicons/favicon-48x48.png")
  /\ files (Demo.run_flaky Demo.fresh).2 !! "favicons/favicon-16x16.png"
     = Some (PngFile (mkImage "RGBA" (16, 16) 23)).
Proof.
  assert (H1 : @source_decodes Demo.imaging Demo.flaky Demo.fresh Demo.source)
    by (exists (Raw [Byte.x89]); repeat split; reflexivity).
  assert (H2 : In (@square_png Demo.imaging (@convert Demo.imaging Demo.source "RGBA") 16)
                  (@artifacts Demo.imaging (@convert Demo.imaging Demo.source "RGBA")))
    by (left; reflexivity).
  assert (H3 : In (EvPrint "Created favicon-16x16.png")
                  (@history_since Demo.imaging Demo.fresh (Demo.run_flaky Demo.fresh).2)).
  { vm_compute. do 3 right. left. reflexivity. }
  split; [exact H1 |]. split; [exact H2 |]. split; [exact H3 |].
  split; [vm_compute; reflexivity |].
  exact (@progress_lines_are_truthful Demo.imaging Demo.flaky Demo.fresh _ _ H1 H2 H3).
Defined.

Lemma rerun_repairs_witness :
  @main Demo.imaging Demo.flaky Demo.fresh
  = (Raise (OSError "favicons/favicon-48x48.png"), (Demo.run_flaky Demo.fresh).2)
  /\ @main Demo.imaging Demo.healthy (Demo.run_flaky Demo.fresh).2
     = (Ok tt, (Demo.run (Demo.run_flaky Demo.fresh).2).2)
  /\ files (Demo.run_flaky Demo.fresh).2 !! "favicons/favicon-48x48.png" = Some (Raw [])
  /\ files (Demo.run (Demo.run_flaky Demo.fresh).2).2 = files (Demo.run Demo.fresh).2.
Proof.
  assert (H1 : @main Demo.imaging Demo.flaky Demo.fresh
               = (Raise (OSError "favicons/favicon-48x48.png"),
                  (Demo.run_flaky Demo.fresh).2))
    by (vm_compute; reflexivity).
  assert (H2 : @main Demo.imaging Demo.healthy (Demo.run_flaky Demo.fresh).2
               = (Ok tt, (Demo.run (Demo.run_flaky Demo.fresh).2).2))
    by (vm_compute; reflexivity).
  split; [exact H1 |]. split; [exact H2 |]. split; [vm_compute; reflexivity |].
  destruct (@rerun_repairs Demo.imaging Demo.flaky Demo.healthy _ _ _ _ H1 H2)
    as (im & Hsrc & Hf).
  rewrite Hf.
  assert (im = Demo.source) as ->.
  { destruct Hsrc as (d & Hd & _ & Hdec). vm_compute in Hd. injection Hd as <-.
    vm_compute in Hdec. now injection Hdec as <-. }
  vm_compute. reflexivity.
Defined.

Lemma outputs_depend_on_source_only_witness :
  @main Demo.imaging Demo.healthy Demo.lived_in
  = (Ok tt, (Demo.run Demo.lived_in).2)
  /\ @main Demo.imaging Demo.transient (Demo.run_transient Demo.fresh).2
     = (Ok tt, (Demo.run_transient (Demo.run_transient Demo.fresh).2).2)
  /\ files Demo.lived_in !! SOURCE = files (Demo.run_transient Demo.fresh).2 !! SOURCE
  /\ forall p, In p output_paths ->
       files (Demo.run Demo.lived_in).2 !! p
       = files (Demo.run_transient (Demo.run_transient Demo.fresh).2).2 !! p.
Proof.
  assert (H1 : @main Demo.imaging Demo.healthy Demo.lived_in
               = (Ok tt, (Demo.run Demo.lived_in).2))
    by (vm_compute; reflexivity).
  assert (H2 : @main Demo.imaging Demo.transient (Demo.run_transient Demo.fresh).2
               = (Ok tt, (Demo.run_transient (Demo.run_transient Demo.fresh).2).2))
    by (vm_compute; reflexivity).
  assert (H3 : files Demo.lived_in !! SOURCE
               = files (Demo.run_transient Demo.fresh).2 !! SOURCE)
    by (vm_compute; reflexivity).
  split; [exact H1 |]. split; [exact H2 |]. split; [exact H3 |].
  exact (@outputs_depend_on_source_only Demo.imaging Demo.healthy Demo.transient
           _ _ _ _ H1 H2 H3).
Defined.
